(** * Workers Connect: distance filter and OAuth redirect handshake

    A shallow embedding of the logic of the application:

    - [lib/location-service.ts]: [toRad], [calculateDistance],
      [isWithinRadius], and the functions that talk to the device:
      [requestLocationPermission], [checkLocationPermission],
      [getCurrentLocation], [watchLocation], [geocodeAddress];
    - [app/(tabs)/search.tsx]: the effect that filters the worker list,
      the loading of the user's location and the profession tags;
    - [app/map.tsx]: the loading of the map's centre;
    - the home screen's [handleLogin]: the parsing of the redirect URL
      returned by the browser session.

    JavaScript numbers are kept behind an interface ([Number]) so that the
    same definition of [calculateDistance] is read both over IEEE binary64
    values (Rocq's primitive floats, with [Math.sin], [Math.cos] and
    [Math.atan2] left to the platform) and over the real numbers. The
    program computes on binary64 values; the real numbers give what the
    formula is in exact arithmetic, which the doubles do not always
    follow. *)

From Stdlib Require Import ZArith List String Ascii Bool Lia.
From Stdlib Require Import Permutation.
From Stdlib Require Import Floats.
From Stdlib Require Import Reals Lra.
Import ListNotations.

Set Implicit Arguments.

(** ** Numbers *)

(** The arithmetic the source uses on values of type [number]: literals,
    [+ - * /], [<=], [Math.PI] and five functions of [Math]. *)
Class Number (num : Type) : Type := {
  lit : Z -> num;
  Math_PI : num;
  plus : num -> num -> num;
  minus : num -> num -> num;
  times : num -> num -> num;
  divide : num -> num -> num;
  le : num -> num -> bool;
  Math_sin : num -> num;
  Math_cos : num -> num;
  Math_sqrt : num -> num;
  Math_atan2 : num -> num -> num;
  Math_round : num -> num
}.

Declare Scope js_scope.
Delimit Scope js_scope with js.
Infix "+" := plus : js_scope.
Infix "-" := minus : js_scope.
Infix "*" := times : js_scope.
Infix "/" := divide : js_scope.
Infix "<=?" := le : js_scope.

(** ** lib/location-service.ts *)

Record LocationCoordinates (num : Type) : Type := {
  latitude : num;
  longitude : num
}.

Section LocationService.
Context {num : Type} {N : Number num}.
Local Open Scope js_scope.

Definition toRad (degrees : num) : num :=
  degrees * (Math_PI / lit 180).

Definition calculateDistance (coord1 coord2 : LocationCoordinates num) : num :=
  let R := lit 6371 in
  let dLat := toRad (latitude coord2 - latitude coord1) in
  let dLon := toRad (longitude coord2 - longitude coord1) in
  let lat1 := toRad (latitude coord1) in
  let lat2 := toRad (latitude coord2) in
  let a :=
    Math_sin (dLat / lit 2) * Math_sin (dLat / lit 2) +
    Math_sin (dLon / lit 2) * Math_sin (dLon / lit 2) * Math_cos lat1 * Math_cos lat2 in
  let c := lit 2 * Math_atan2 (Math_sqrt a) (Math_sqrt (lit 1 - a)) in
  let distance := R * c in
  Math_round (distance * lit 10) / lit 10.

Definition isWithinRadius (point center : LocationCoordinates num) (radiusKm : num) : bool :=
  let distance := calculateDistance point center in
  distance <=? radiusKm.


End LocationService.

(** ** IEEE binary64 numbers *)

(** A numeric literal of the source that is an integer; the conversion is
    exact below 2^53. *)
Definition float_of_Z (z : Z) : float :=
  match z with
  | Z0 => zero
  | Zpos _ => of_uint63 (Uint63.of_Z z)
  | Zneg p => (- of_uint63 (Uint63.of_Z (Zpos p)))%float
  end.

(** [Math.round] on a binary64 value (ECMAScript, Math.round): the value
    itself when it is not finite or already integral, otherwise the
    integer closest to it, the one towards +infinity in a tie; a result
    of zero keeps the sign of the argument. It is computed exactly on the
    mantissa and exponent: [floor (x + 1/2)] for [x = +-m * 2^e], [e < 0],
    is [(+-2m + 2^(-e)) / 2^(1-e)] in integer division, an integer below
    2^53 in absolute value. *)
Definition Math_round_float (x : float) : float :=
  match Prim2SF x with
  | S754_finite s m e =>
      if (0 <=? e)%Z then x
      else
        match ((cond_Zopp s (Z.pos m) * 2 + 2 ^ (- e)) / 2 ^ (1 - e))%Z with
        | Z0 => if s then neg_zero else zero
        | n => float_of_Z n
        end
  | _ => x
  end.

Section IEEE.
(** [Math.sin], [Math.cos] and [Math.atan2] are implementation-approximated
    in ECMAScript: they are whatever the platform provides. [Math.sqrt]
    is taken to be the correctly rounded square root of IEEE 754, as the
    engines compute it. *)
Variables (sin cos : float -> float) (atan2 : float -> float -> float).

Definition ieee : Number float := {|
  lit := float_of_Z;
  Math_PI := 0x1.921fb54442d18p+1%float;
  plus := PrimFloat.add;
  minus := PrimFloat.sub;
  times := PrimFloat.mul;
  divide := PrimFloat.div;
  le := PrimFloat.leb;
  Math_sin := sin;
  Math_cos := cos;
  Math_sqrt := PrimFloat.sqrt;
  Math_atan2 := atan2;
  Math_round := Math_round_float
|}.
End IEEE.

(** ** Real numbers *)

(** The same operations read as exact arithmetic, the "pure math" of the
    distance formula: no rounding and no NaN, so this instance says what
    the formula means, not what the program returns. [Math.atan2 y x] is the angle of the point [(x, y)],
    in (-PI, PI]; [Math.round x] is [floor (x + 1/2)]. *)
Definition atan2_R (y x : R) : R :=
  if Rlt_dec 0 x then atan (y / x)
  else if Rlt_dec x 0 then
    if Rle_dec 0 y then (atan (y / x) + PI)%R else (atan (y / x) - PI)%R
  else
    if Rlt_dec 0 y then (PI / 2)%R
    else if Rlt_dec y 0 then (- (PI / 2))%R
    else 0%R.

Definition round_R (x : R) : R := IZR (Zfloor (x + / 2)).

Definition reals : Number R := {|
  lit := IZR;
  Math_PI := PI;
  plus := Rplus;
  minus := Rminus;
  times := Rmult;
  divide := Rdiv;
  le := fun x y => if Rle_dec x y then true else false;
  Math_sin := Rtrigo_def.sin;
  Math_cos := Rtrigo_def.cos;
  Math_sqrt := R_sqrt.sqrt;
  Math_atan2 := atan2_R;
  Math_round := round_R
|}.

(** The haversine formula, as the specification names it: the
    great-circle distance between two points given in degrees, on a
    sphere of radius 6371 km. *)
Definition hav (theta : R) : R :=
  (Rtrigo_def.sin (theta / 2) * Rtrigo_def.sin (theta / 2))%R.

Definition radians (degrees : R) : R :=
  (degrees * PI / 180)%R.

Definition haversine_a (p q : LocationCoordinates R) : R :=
  (hav (radians (latitude q - latitude p))
   + Rtrigo_def.cos (radians (latitude p)) * Rtrigo_def.cos (radians (latitude q))
     * hav (radians (longitude q - longitude p)))%R.

Definition haversine_km (p q : LocationCoordinates R) : R :=
  (2 * 6371 * asin (R_sqrt.sqrt (haversine_a p q)))%R.

(** ** Signs of binary64 values *)

(** Neither a negative number nor minus infinity: a NaN and both zeros
    pass. *)
Definition not_negative (f : spec_float) : bool :=
  match f with
  | S754_infinity true | S754_finite true _ _ => false
  | _ => true
  end.

(** The sign bit, taken as clear for a NaN. *)
Definition sign_bit (f : spec_float) : bool :=
  match f with
  | S754_zero s | S754_infinity s | S754_finite s _ _ => s
  | S754_nan => false
  end.

(** The sign bit is not set, or the value is a NaN. *)
Definition sign_clear (f : spec_float) : bool :=
  match f with
  | S754_zero true | S754_infinity true | S754_finite true _ _ => false
  | _ => true
  end.

(** ** Strings *)

Local Open Scope string_scope.

(** [s.startsWith(p)] is [prefix p s] of the standard library;
    [s.includes(sub)] holds when [sub] occurs in [s] as a contiguous
    substring. *)
Fixpoint includes (s sub : string) : bool :=
  prefix sub s ||
  match s with
  | EmptyString => false
  | String _ rest => includes rest sub
  end.

(** A string used as a condition: the empty string is falsy. *)
Definition truthy (s : string) : bool :=
  negb (s =? "").

(** A nullable string used as a condition: [null] and [""] are falsy. *)
Definition truthy_opt (s : option string) : bool :=
  match s with
  | Some v => truthy v
  | None => false
  end.

(** The string held by a value known to be truthy. *)
Definition unwrap (s : option string) : string :=
  match s with
  | Some v => v
  | None => EmptyString
  end.

(** ** lib/types.ts: WorkerProfile *)

(** The fields of [User] and [WorkerProfile] that carry strings, numbers
    and flags. [location] keeps its coordinates apart from its optional
    [address]; [role], the two dates and the portfolio play no part in
    filtering and are left out. *)
Record WorkerProfile (num : Type) : Type := {
  id : string;
  openId : string;
  name : string;
  email : string;
  phone : option string;
  profileImage : option string;
  profession : string;
  bio : option string;
  rating : num;
  reviewCount : num;
  hourlyRate : option num;
  location : LocationCoordinates num;
  location_address : option string;
  isAvailable : bool;
  tags : list string
}.

(** ** app/(tabs)/search.tsx: the filter effect *)

Section Search.
Context {num : Type} {N : Number num}.
Local Open Scope js_scope.

(** The three predicates handed to [Array.prototype.filter]. *)
Definition matchesProfession (selectedProfession : string) (w : WorkerProfile num) : bool :=
  (profession w =? selectedProfession)%string.

Definition matchesQuery (searchQuery : string) (w : WorkerProfile num) : bool :=
  includes (name w) searchQuery
  || includes (profession w) searchQuery
  || existsb (fun tag => includes tag searchQuery) (tags w).

Definition withinMaxDistance (userLocation : LocationCoordinates num) (maxDistance : num)
    (w : WorkerProfile num) : bool :=
  let distance := calculateDistance userLocation (location w) in
  distance <=? maxDistance.

(** The body of the effect: the value handed to [setFilteredWorkers]. *)
Definition filterWorkers (workers : list (WorkerProfile num))
    (searchQuery : string) (selectedProfession : option string)
    (maxDistance : num) (userLocation : option (LocationCoordinates num))
    : list (WorkerProfile num) :=
  let filtered := workers in
  let filtered :=
    match selectedProfession with
    | Some p => if truthy p then filter (matchesProfession p) filtered else filtered
    | None => filtered
    end in
  let filtered :=
    if truthy searchQuery then filter (matchesQuery searchQuery) filtered else filtered in
  let filtered :=
    match userLocation with
    | Some origin => filter (withinMaxDistance origin maxDistance) filtered
    | None => filtered
    end in
  filtered.

(** The three steps taken one at a time, to apply them in another order. *)
Inductive Step : Type := ByProfession | ByQuery | ByDistance.

Record Criteria : Type := {
  searchQuery : string;
  selectedProfession : option string;
  maxDistance : num;
  userLocation : option (LocationCoordinates num)
}.

Definition applyStep (c : Criteria) (s : Step) (filtered : list (WorkerProfile num))
    : list (WorkerProfile num) :=
  match s with
  | ByProfession =>
      match selectedProfession c with
      | Some p => if truthy p then filter (matchesProfession p) filtered else filtered
      | None => filtered
      end
  | ByQuery =>
      if truthy (searchQuery c)
      then filter (matchesQuery (searchQuery c)) filtered else filtered
  | ByDistance =>
      match userLocation c with
      | Some origin => filter (withinMaxDistance origin (maxDistance c)) filtered
      | None => filtered
      end
  end.

Definition applySteps (c : Criteria) (order : list Step) (workers : list (WorkerProfile num))
    : list (WorkerProfile num) :=
  fold_left (fun filtered s => applyStep c s filtered) order workers.

(** What a step keeps, as one predicate: an inactive step keeps everything. *)
Definition keeps (c : Criteria) (s : Step) (w : WorkerProfile num) : bool :=
  match s with
  | ByProfession =>
      match selectedProfession c with
      | Some p => if truthy p then matchesProfession p w else true
      | None => true
      end
  | ByQuery =>
      if truthy (searchQuery c) then matchesQuery (searchQuery c) w else true
  | ByDistance =>
      match userLocation c with
      | Some origin => withinMaxDistance origin (maxDistance c) w
      | None => true
      end
  end.

End Search.

(** [l1] is [l2] with some elements removed: the elements of [l1] occur in
    [l2], in the same order, each position of [l2] used at most once. *)
Inductive subseq {A : Type} : list A -> list A -> Prop :=
| subseq_nil : subseq [] []
| subseq_skip : forall x l1 l2, subseq l1 l2 -> subseq l1 (x :: l2)
| subseq_keep : forall x l1 l2, subseq l1 l2 -> subseq (x :: l1) (x :: l2).

(** ** The home screen: the redirect URL *)

(** JavaScript strings are modelled by their UTF-8 bytes; every character
    the code below looks for is ASCII. *)

Fixpoint drop (n : nat) (s : string) : string :=
  match n, s with
  | O, _ => s
  | S n', String _ rest => drop n' rest
  | S _, EmptyString => EmptyString
  end.

(** [s.replace(/^exp(s)?:\/\//, "http://")]: the scheme at the very start
    of [s], with or without the [s], is replaced; any other [s] is
    returned as it is. *)
Definition replace_exp_scheme (s : string) : string :=
  if prefix "exps://" s then "http://" ++ drop 7 s
  else if prefix "exp://" s then "http://" ++ drop 6 s
  else s.

(** The longest prefix of [s] without ["&"]: what [[^&]+] consumes. *)
Fixpoint upto_amp (s : string) : string :=
  match s with
  | EmptyString => EmptyString
  | String c rest => if (c =? "&")%char then EmptyString else String c (upto_amp rest)
  end.

(** [s.match(/[?&]NAME=([^&]+)/)]: the first capture group of the leftmost
    match, [None] for [null]. A match starts at a ["?"] or ["&"] followed
    by [NAME=] and at least one character other than ["&"]. *)
Fixpoint match_param (name : string) (s : string) : option string :=
  match s with
  | EmptyString => None
  | String c rest =>
      let group :=
        if ((c =? "?")%char || (c =? "&")%char) && prefix (name ++ "=") rest
        then upto_amp (drop (length name + 1) rest)
        else EmptyString in
      if truthy group then Some group else match_param name rest
  end.

(** *** decodeURIComponent *)

Definition hex_digit (c : ascii) : option N :=
  let n := N_of_ascii c in
  if (48 <=? n)%N && (n <=? 57)%N then Some (n - 48)%N
  else if (65 <=? n)%N && (n <=? 70)%N then Some (n - 55)%N
  else if (97 <=? n)%N && (n <=? 102)%N then Some (n - 87)%N
  else None.

Definition hex_octet (c1 c2 : ascii) : option N :=
  match hex_digit c1, hex_digit c2 with
  | Some h, Some l => Some (16 * h + l)%N
  | _, _ => None
  end.

(** A string cut into plain characters and [%XX] escapes. *)
Inductive Token : Type :=
| Plain (c : ascii)
| Escape (octet : N).

(** Every ["%"] must start an escape of two hexadecimal digits: otherwise
    [decodeURIComponent] throws a [URIError] ([None]). *)
Fixpoint tokens (s : string) : option (list Token) :=
  match s with
  | EmptyString => Some []
  | String c rest =>
      if (c =? "%")%char then
        match rest with
        | String c1 (String c2 rest') =>
            match hex_octet c1 c2, tokens rest' with
            | Some b, Some ts => Some (Escape b :: ts)
            | _, _ => None
            end
        | _ => None
        end
      else
        match tokens rest with
        | Some ts => Some (Plain c :: ts)
        | None => None
        end
  end.

Definition between (lo hi b : N) : bool := ((lo <=? b) && (b <=? hi))%N.

(** The well-formed UTF-8 sequences of two, three and four octets. *)
Definition utf8_2 (b1 b2 : N) : bool :=
  between 194 223 b1 && between 128 191 b2.

Definition utf8_3 (b1 b2 b3 : N) : bool :=
  ((b1 =? 224)%N && between 160 191 b2
   || between 225 236 b1 && between 128 191 b2
   || (b1 =? 237)%N && between 128 159 b2
   || between 238 239 b1 && between 128 191 b2)
  && between 128 191 b3.

Definition utf8_4 (b1 b2 b3 b4 : N) : bool :=
  ((b1 =? 240)%N && between 144 191 b2
   || between 241 243 b1 && between 128 191 b2
   || (b1 =? 244)%N && between 128 143 b2)
  && between 128 191 b3 && between 128 191 b4.

Definition octets (bs : list N) : string :=
  string_of_list_ascii (map ascii_of_N bs).

(** An escape below 128 is that character; an escape from 128 on must
    open a run of escapes that spell one code point in UTF-8, and the
    result holds that code point (here: its UTF-8 bytes). *)
Fixpoint decode_tokens (ts : list Token) : option string :=
  match ts with
  | [] => Some EmptyString
  | Plain c :: ts' =>
      match decode_tokens ts' with
      | Some r => Some (String c r)
      | None => None
      end
  | Escape b1 :: ts1 =>
      if (b1 <? 128)%N then
        match decode_tokens ts1 with
        | Some r => Some (String (ascii_of_N b1) r)
        | None => None
        end
      else if (b1 <? 192)%N then None
      else if (b1 <? 224)%N then
        match ts1 with
        | Escape b2 :: ts2 =>
            if utf8_2 b1 b2 then
              match decode_tokens ts2 with
              | Some r => Some (octets [b1; b2] ++ r)
              | None => None
              end
            else None
        | _ => None
        end
      else if (b1 <? 240)%N then
        match ts1 with
        | Escape b2 :: Escape b3 :: ts3 =>
            if utf8_3 b1 b2 b3 then
              match decode_tokens ts3 with
              | Some r => Some (octets [b1; b2; b3] ++ r)
              | None => None
              end
            else None
        | _ => None
        end
      else if (b1 <? 248)%N then
        match ts1 with
        | Escape b2 :: Escape b3 :: Escape b4 :: ts4 =>
            if utf8_4 b1 b2 b3 b4 then
              match decode_tokens ts4 with
              | Some r => Some (octets [b1; b2; b3; b4] ++ r)
              | None => None
              end
            else None
        | _ => None
        end
      else None
  end.

Definition decodeURIComponent (s : string) : option string :=
  match tokens s with
  | Some ts => decode_tokens ts
  | None => None
  end.

(** *** URL and URLSearchParams *)

(** What [handleLogin] reads of a [URL] object: its query parameters, in
    order of appearance. *)
Record URL : Type := {
  searchParams : list (string * string)
}.

(** [params.get(name)]: the value of the first pair called [name], or
    [null]. *)
Fixpoint URLSearchParams_get (params : list (string * string)) (name : string)
    : option string :=
  match params with
  | [] => None
  | (k, v) :: rest => if (k =? name)%string then Some v else URLSearchParams_get rest name
  end.

(** *** handleLogin *)

Inductive PlatformOS : Type := web | ios | android | windows | macos.

(** The value [WebBrowser.openAuthSessionAsync] resolves to. *)
Inductive WebBrowserAuthSessionResult : Type :=
| cancel
| dismiss
| opened
| locked
| success (url : string).

(** What one run of [handleLogin] does, besides logging progress. *)
Inductive Outcome : Type :=
| RedirectedInTab (loginUrl : string)   (* window.location.href = loginUrl *)
| Cancelled                             (* "OAuth cancelled by user" *)
| Dismissed                             (* "OAuth dismissed" *)
| Ignored                               (* no branch applies *)
| OAuthError (error : string)           (* "OAuth error in callback" *)
| MissingCodeOrState                    (* "Missing code or state in callback URL" *)
| Navigated (code state : string)       (* router.push to /oauth/callback *)
| CouldNotExtract                       (* "Could not extract code/state from URL" *)
| LoginError.                           (* "Login error": the outer catch *)

Section Handshake.
(** [new URL(s)] of the platform, with the query parameters read from
    the object: [None] when the [try] block throws before its first
    branch, as the constructor does on a string it rejects.
    [router.push] and the logging calls are taken not to throw. *)
Variable new_URL : string -> option URL.

Definition handleLogin (os : PlatformOS) (loginUrl : string)
    (result : WebBrowserAuthSessionResult) : Outcome :=
  match os with
  | web => RedirectedInTab loginUrl
  | _ =>
      match result with
      | cancel => Cancelled
      | dismiss => Dismissed
      | success result_url =>
          if truthy result_url then
            let url :=
              if prefix "exp://" result_url || prefix "exps://" result_url
              then new_URL (replace_exp_scheme result_url)
              else new_URL result_url in
            match url with
            | Some url =>
                let code := URLSearchParams_get (searchParams url) "code" in
                let state := URLSearchParams_get (searchParams url) "state" in
                let error := URLSearchParams_get (searchParams url) "error" in
                if truthy_opt error then OAuthError (unwrap error)
                else if truthy_opt code && truthy_opt state
                then Navigated (unwrap code) (unwrap state)
                else MissingCodeOrState
            | None =>
                let codeMatch := match_param "code" result_url in
                let stateMatch := match_param "state" result_url in
                match codeMatch, stateMatch with
                | Some c, Some s =>
                    match decodeURIComponent c with
                    | Some code =>
                        match decodeURIComponent s with
                        | Some state => Navigated code state
                        | None => LoginError
                        end
                    | None => LoginError
                    end
                | _, _ => CouldNotExtract
                end
            end
          else Ignored
      | _ => Ignored
      end
  end.

End Handshake.

(** The states of the handshake a run ends in. *)
Definition Success (o : Outcome) : bool :=
  match o with
  | Navigated _ _ => true
  | _ => false
  end.


(** *** A reference URL parser *)

(** A model of the platform's [new URL(s)] after the URL Standard, for a
    string without a base URL. It fails only where the Standard fails:
    when [s] does not start with a scheme, when a special scheme has an
    empty host, when the host holds a forbidden character and when the
    port is not a number below 65536. Hosts are otherwise taken as they
    are (no IDNA, IPv4 or IPv6 checks). The query runs from the first
    ["?"] to the first ["#"] and is read as
    [application/x-www-form-urlencoded] data. *)

Definition is_alpha (c : ascii) : bool :=
  let n := N_of_ascii c in between 65 90 n || between 97 122 n.

Definition is_digit (c : ascii) : bool :=
  between 48 57 (N_of_ascii c).

Definition to_lower (c : ascii) : ascii :=
  let n := N_of_ascii c in
  if between 65 90 n then ascii_of_N (n + 32) else c.

Definition is_tab_or_newline (c : ascii) : bool :=
  let n := N_of_ascii c in (n =? 9)%N || (n =? 10)%N || (n =? 13)%N.

Definition is_c0_or_space (c : ascii) : bool :=
  (N_of_ascii c <=? 32)%N.

Fixpoint skip (p : ascii -> bool) (s : string) : string :=
  match s with
  | String c rest => if p c then skip p rest else s
  | EmptyString => EmptyString
  end.

(** [s] without the characters at its end that satisfy [p]. *)
Fixpoint skip_end (p : ascii -> bool) (s : string) : string :=
  match s with
  | EmptyString => EmptyString
  | String c rest =>
      match skip_end p rest with
      | EmptyString => if p c then EmptyString else String c EmptyString
      | r => String c r
      end
  end.

Fixpoint remove (p : ascii -> bool) (s : string) : string :=
  match s with
  | EmptyString => EmptyString
  | String c rest => if p c then remove p rest else String c (remove p rest)
  end.

(** Leading and trailing C0 controls and spaces are dropped, then every
    tab and newline. *)
Definition clean_input (s : string) : string :=
  remove is_tab_or_newline (skip_end is_c0_or_space (skip is_c0_or_space s)).

(** The scheme, in lower case, and what follows its [":"]. *)
Fixpoint scheme_rest (s : string) : option (string * string) :=
  match s with
  | EmptyString => None
  | String c rest =>
      if (c =? ":")%char then Some (EmptyString, rest)
      else if is_alpha c || is_digit c || (c =? "+")%char || (c =? "-")%char || (c =? ".")%char
      then
        match scheme_rest rest with
        | Some (sch, r) => Some (String (to_lower c) sch, r)
        | None => None
        end
      else None
  end.

Definition split_scheme (s : string) : option (string * string) :=
  match s with
  | String c _ => if is_alpha c then scheme_rest s else None
  | EmptyString => None
  end.

Definition is_special (scheme : string) : bool :=
  existsb (String.eqb scheme) ["http"; "https"; "ws"; "wss"; "ftp"].

(** [s] up to the first character satisfying [stop], and the rest. *)
Fixpoint break (stop : ascii -> bool) (s : string) : string * string :=
  match s with
  | EmptyString => (EmptyString, EmptyString)
  | String c rest =>
      if stop c then (EmptyString, s)
      else let (a, b) := break stop rest in (String c a, b)
  end.

Definition is_slash (c : ascii) : bool := (c =? "/")%char || (c =? "\")%char.

Definition ends_authority (special : bool) (c : ascii) : bool :=
  (c =? "/")%char || special && (c =? "\")%char || (c =? "?")%char || (c =? "#")%char.

(** What follows the last [sep] of [s], when [sep] occurs in [s]. *)
Fixpoint after_last (sep : ascii) (s : string) : option string :=
  match s with
  | EmptyString => None
  | String c rest =>
      match after_last sep rest with
      | Some r => Some r
      | None => if (c =? sep)%char then Some rest else None
      end
  end.

Definition forbidden_host_char (special : bool) (c : ascii) : bool :=
  let n := N_of_ascii c in
  (n =? 0)%N || (n =? 32)%N
  || existsb (Ascii.eqb c) (list_ascii_of_string "#/:<>?@[\]^|")
  || special && ((n <? 32)%N || (n =? 127)%N).

Fixpoint decimal (s : string) (acc : N) : option N :=
  match s with
  | EmptyString => Some acc
  | String c rest =>
      if is_digit c then decimal rest (10 * acc + (N_of_ascii c - 48))%N else None
  end.

Definition valid_port (p : string) : bool :=
  match decimal p 0 with
  | Some n => (n <=? 65535)%N
  | None => false
  end.

Definition valid_authority (special : bool) (authority : string) : bool :=
  let hostport :=
    match after_last "@" authority with
    | Some r => r
    | None => authority
    end in
  if prefix "[" hostport then true
  else
    let (host, port) := break (Ascii.eqb ":") hostport in
    negb (special && (host =? "")%string)
    && forallb (fun c => negb (forbidden_host_char special c)) (list_ascii_of_string host)
    && valid_port (drop 1 port).

(** Percent-decoding inside the query: a ["%"] that opens no escape is
    kept. *)
Fixpoint percent_decode (s : string) : string :=
  match s with
  | EmptyString => EmptyString
  | String c rest =>
      match rest with
      | String c1 (String c2 rest') =>
          match (if (c =? "%")%char then hex_octet c1 c2 else None) with
          | Some b => String (ascii_of_N b) (percent_decode rest')
          | None => String c (percent_decode rest)
          end
      | _ => String c (percent_decode rest)
      end
  end.

Definition plus_to_space (s : string) : string :=
  string_of_list_ascii
    (map (fun c => if (c =? "+")%char then " "%char else c) (list_ascii_of_string s)).

Definition form_value (s : string) : string :=
  percent_decode (plus_to_space s).

(** The pieces of [s] between occurrences of [sep]. *)
Fixpoint split (sep : ascii) (s : string) : list string :=
  match s with
  | EmptyString => [EmptyString]
  | String c rest =>
      if (c =? sep)%char then EmptyString :: split sep rest
      else
        match split sep rest with
        | piece :: pieces => String c piece :: pieces
        | [] => [String c EmptyString]
        end
  end.

(** The pieces between ["&"], the empty ones dropped, each cut at its
    first ["="]. *)
Definition parse_query (query : string) : list (string * string) :=
  map (fun piece =>
         let (k, v) := break (Ascii.eqb "=") piece in
         (form_value k, form_value (drop 1 v)))
      (filter truthy (split "&" query)).

Definition URL_parse (input : string) : option URL :=
  match split_scheme (clean_input input) with
  | None => None
  | Some (scheme, rest) =>
      let special := is_special scheme in
      let after_slashes :=
        if special then Some (skip is_slash rest)
        else if prefix "//" rest then Some (drop 2 rest)
        else None in
      let ok :=
        match after_slashes with
        | Some r => valid_authority special (fst (break (ends_authority special) r))
        | None => true
        end in
      if ok then
        let before_fragment := fst (break (Ascii.eqb "#") rest) in
        let query := drop 1 (snd (break (Ascii.eqb "?") before_fragment)) in
        Some {| searchParams := parse_query query |}
      else None
  end.

(** ** Sample data *)

#[local] Set Warnings "-inexact-float".

(** [MOCK_WORKERS] of the search screen. *)
Definition MOCK_WORKERS : list (WorkerProfile float) := [
  {| id := "1";
     openId := "worker1";
     name := "أحمد محمد";
     email := "ahmed@example.com";
     phone := Some "+966501234567";
     profileImage := Some "https://via.placeholder.com/150";
     profession := "كهربائي";
     bio := Some "كهربائي محترف مع 10 سنوات خبرة";
     rating := 4.8%float;
     reviewCount := 45%float;
     hourlyRate := Some 100%float;
     location := {| latitude := 24.7136%float; longitude := 46.6753%float |};
     location_address := Some "الرياض";
     isAvailable := true;
     tags := ["كهربائي"; "صيانة"; "تركيب"] |};
  {| id := "2";
     openId := "worker2";
     name := "فاطمة علي";
     email := "fatima@example.com";
     phone := Some "+966501234568";
     profileImage := Some "https://via.placeholder.com/150";
     profession := "مصفف شعر";
     bio := Some "مصففة شعر متخصصة في التسريحات الحديثة";
     rating := 4.9%float;
     reviewCount := 120%float;
     hourlyRate := Some 80%float;
     location := {| latitude := 24.7245%float; longitude := 46.6881%float |};
     location_address := Some "الرياض";
     isAvailable := true;
     tags := ["تصفيف"; "عناية"; "تلوين"] |}
].

(** Small closed forms, for running the code on sample data: any
    implementation of [Math.sin], [Math.cos] and [Math.atan2] can take
    their place, and no general statement below depends on them. They are
    close to the true functions for small arguments only. *)
Definition sin_series (x : float) : float :=
  let x2 := (x * x)%float in
  (x * (1 - x2 / 6 + x2 * x2 / 120))%float.

Definition cos_series (x : float) : float :=
  let x2 := (x * x)%float in
  (1 - x2 / 2 + x2 * x2 / 24)%float.

Definition atan_series (t : float) : float :=
  (t / (1 + 0.28125 * (t * t)))%float.

Definition atan2_series (y x : float) : float :=
  if (0 <? x)%float then atan_series (y / x)
  else if (0 <? y)%float then (0x1.921fb54442d18p+1 / 2)%float
  else if (y <? 0)%float then (- (0x1.921fb54442d18p+1 / 2))%float
  else 0%float.

Definition ieee_series : Number float := ieee sin_series cos_series atan2_series.

(** ** lib/location-service.ts: permissions and the device *)

(** The functions of the service talk to the [Location] module of the
    platform. A run is modelled by the events it causes, in order, and
    the value it returns; the module is given by what each of its calls
    settles to. *)

Inductive PermissionStatus : Type := granted | denied | undetermined.

Definition is_granted (status : PermissionStatus) : bool :=
  match status with
  | granted => true
  | _ => false
  end.

(** What a rejected promise carries: an [Error] or some other value. *)
Inductive Thrown : Type :=
| ErrorObject (message : string)
| OtherValue.

Inductive Settled (A : Type) : Type :=
| Resolved (value : A)
| Rejected (reason : Thrown).

Arguments Resolved {A} value.
Arguments Rejected {A} reason.

(** [LocationObject]: the readings the service uses; [null] is [None]. *)
Record LocationObjectCoords : Type := {
  coords_latitude : float;
  coords_longitude : float;
  coords_accuracy : option float;
  coords_altitude : option float;
  coords_heading : option float;
  coords_speed : option float
}.

Record LocationObject : Type := {
  coords : LocationObjectCoords
}.

Record LocationGeocodedAddress : Type := {
  street : option string;
  city : option string;
  region : option string
}.

Definition LocationSubscription : Type := nat.

Record ExpoLocation : Type := {
  requestForegroundPermissionsAsync : Settled PermissionStatus;
  getForegroundPermissionsAsync : Settled PermissionStatus;
  getCurrentPositionAsync : Settled LocationObject;
  reverseGeocodeAsync : LocationCoordinates float -> Settled (list LocationGeocodedAddress);
  geocodeAsync : string -> Settled (list (LocationCoordinates float));
  watchPositionAsync : Settled LocationSubscription
}.

Inductive Api : Type :=
| RequestForegroundPermissions
| GetForegroundPermissions
| GetCurrentPosition
| ReverseGeocode (at_ : LocationCoordinates float)
| Geocode (address : string)
| WatchPosition.

Inductive Event : Type :=
| Called (api : Api)
| ConsoleWarn (message : string)
| ConsoleError (message : string)
| OnError (message : string)                  (* the caller's [onError] *)
| Removed (subscription : LocationSubscription). (* [subscription.remove()] *)

Definition Eff (A : Type) : Type := (list Event * A)%type.

Definition ret {A : Type} (a : A) : Eff A := ([], a).

Definition bind {A B : Type} (m : Eff A) (k : A -> Eff B) : Eff B :=
  let (t1, a) := m in
  let (t2, b) := k a in
  ((t1 ++ t2)%list, b).

Definition emit (e : Event) : Eff unit := ([e], tt).

Definition await {A : Type} (api : Api) (promise : Settled A) : Eff (Settled A) :=
  ([Called api], promise).

Notation "x <- m ;; k" := (bind m (fun x => k))
  (at level 61, m at next level, right associativity).
Notation "m ;;; k" := (bind m (fun _ => k))
  (at level 61, right associativity).

(** [LocationData extends LocationCoordinates]: the two coordinates are
    kept together as [coordinates]. *)
Record LocationData : Type := {
  coordinates : LocationCoordinates float;
  address : option string;
  accuracy : option float;
  altitude : option float;
  heading : option float;
  speed : option float
}.

(** A number used as a condition: [0], [-0] and [NaN] are falsy. *)
Definition falsy_number (x : float) : bool :=
  is_zero x || is_nan x.

(** [x || undefined] for [x : number | null]. *)
Definition or_undefined (x : option float) : option float :=
  match x with
  | Some v => if falsy_number v then None else Some v
  | None => None
  end.

(** [parts.filter(Boolean)] on strings that may be [null]. *)
Fixpoint filter_Boolean (parts : list (option string)) : list string :=
  match parts with
  | [] => []
  | Some v :: rest => if truthy v then v :: filter_Boolean rest else filter_Boolean rest
  | None :: rest => filter_Boolean rest
  end.

(** [parts.join(sep)]. *)
Fixpoint join (sep : string) (parts : list string) : string :=
  match parts with
  | [] => EmptyString
  | [part] => part
  | part :: rest => part ++ sep ++ join sep rest
  end.

Definition requestLocationPermission (Location : ExpoLocation) : Eff bool :=
  response <- await RequestForegroundPermissions (requestForegroundPermissionsAsync Location) ;;
  match response with
  | Resolved status => ret (is_granted status)
  | Rejected _ =>
      emit (ConsoleError "[LocationService] Permission request error:") ;;; ret false
  end.

Definition checkLocationPermission (Location : ExpoLocation) : Eff bool :=
  response <- await GetForegroundPermissions (getForegroundPermissionsAsync Location) ;;
  match response with
  | Resolved status => ret (is_granted status)
  | Rejected _ =>
      emit (ConsoleError "[LocationService] Permission check error:") ;;; ret false
  end.

Definition getCurrentLocation (Location : ExpoLocation) : Eff (option LocationData) :=
  hasPermission <- checkLocationPermission Location ;;
  granted <- (if hasPermission then ret true else requestLocationPermission Location) ;;
  if negb granted then
    emit (ConsoleWarn "[LocationService] Location permission denied") ;;; ret None
  else
    position <- await GetCurrentPosition (getCurrentPositionAsync Location) ;;
    match position with
    | Rejected _ =>
        emit (ConsoleError "[LocationService] Get current location error:") ;;; ret None
    | Resolved location =>
        let here := {| latitude := coords_latitude (coords location);
                       longitude := coords_longitude (coords location) |} in
        address <-
          (reverseGeocoded <- await (ReverseGeocode here) (reverseGeocodeAsync Location here) ;;
           match reverseGeocoded with
           | Resolved (first :: _) =>
               ret (Some (join ", " (filter_Boolean [street first; city first; region first])))
           | Resolved [] => ret None
           | Rejected _ =>
               emit (ConsoleWarn "[LocationService] Reverse geocoding failed:") ;;; ret None
           end) ;;
        ret (Some {| coordinates := here;
                     address := address;
                     accuracy := or_undefined (coords_accuracy (coords location));
                     altitude := or_undefined (coords_altitude (coords location));
                     heading := or_undefined (coords_heading (coords location));
                     speed := or_undefined (coords_speed (coords location)) |})
    end.

Definition geocodeAddress (Location : ExpoLocation) (address : string)
    : Eff (option (LocationCoordinates float)) :=
  results <- await (Geocode address) (geocodeAsync Location address) ;;
  match results with
  | Resolved (first :: _) =>
      ret (Some {| latitude := latitude first; longitude := longitude first |})
  | Resolved [] => ret None
  | Rejected _ =>
      emit (ConsoleError "[LocationService] Geocode address error:") ;;; ret None
  end.

(** *** watchLocation *)

(** What the position callback hands to [onLocationChange]. *)
Definition onPosition (location : LocationObject) : LocationData :=
  {| coordinates := {| latitude := coords_latitude (coords location);
                       longitude := coords_longitude (coords location) |};
     address := None;
     accuracy := or_undefined (coords_accuracy (coords location));
     altitude := None;
     heading := None;
     speed := None |}.

(** The [catch] block of [startWatching]. *)
Definition watchFailed (onError : bool) (error : Thrown) : Eff unit :=
  emit (ConsoleError "[LocationService] Watch location error:") ;;;
  match error with
  | ErrorObject message => if onError then emit (OnError message) else ret tt
  | OtherValue => ret tt
  end.

(** [startWatching], returning the value the variable [subscription]
    holds when it ends; [onError] tells whether the caller gave a
    handler. *)
Definition startWatching (Location : ExpoLocation) (onError : bool)
    : Eff (option LocationSubscription) :=
  hasPermission <- checkLocationPermission Location ;;
  if negb hasPermission then
    watchFailed onError (ErrorObject "Location permission not granted") ;;; ret None
  else
    started <- await WatchPosition (watchPositionAsync Location) ;;
    match started with
    | Resolved subscription => ret (Some subscription)
    | Rejected error => watchFailed onError error ;;; ret None
    end.

(** The function [watchLocation] returns, run when [subscription] holds
    the given value. *)
Definition cleanup (subscription : option LocationSubscription) : Eff unit :=
  match subscription with
  | Some s => emit (Removed s)
  | None => ret tt
  end.

(** [watchLocation] returns its cleanup function at once, while
    [startWatching] is still waiting: the caller may run the cleanup after
    the subscription has been stored, or before. *)
Definition cleanup_after_start (Location : ExpoLocation) (onError : bool)
    : Eff (option LocationSubscription) :=
  subscription <- startWatching Location onError ;;
  cleanup subscription ;;; ret subscription.

Definition cleanup_before_start (Location : ExpoLocation) (onError : bool)
    : Eff (option LocationSubscription) :=
  cleanup None ;;;
  subscription <- startWatching Location onError ;;
  ret subscription.

(** ** The screens: loading the location, choosing a profession *)

(** [loadLocation] of the search screen: [userLocation] afterwards (it
    starts as [null]) and [loading]. *)
Definition search_loadLocation (Location : ExpoLocation)
    : Eff (option (LocationCoordinates float) * bool) :=
  location <- getCurrentLocation Location ;;
  match location with
  | Some l => ret (Some {| latitude := latitude (coordinates l);
                           longitude := longitude (coordinates l) |}, false)
  | None => ret (None, false)
  end.

Definition Riyadh : LocationCoordinates float :=
  {| latitude := 24.7136%float; longitude := 46.6753%float |}.

(** [loadLocation] of the map screen: [userLocation] and [isLoading]
    afterwards. *)
Definition map_loadLocation (Location : ExpoLocation)
    : Eff (option (LocationCoordinates float) * bool) :=
  location <- getCurrentLocation Location ;;
  match location with
  | Some l => ret (Some {| latitude := latitude (coordinates l);
                           longitude := longitude (coordinates l) |}, false)
  | None => ret (Some Riyadh, false)
  end.

Definition PROFESSIONS : list string := [
  "كهربائي";
  "سباك";
  "نجار";
  "مصفف شعر";
  "طاهي";
  "مدرس";
  "مهندس";
  "ميكانيكي"
].

(** Pressing a profession tag:
    [setSelectedProfession(selectedProfession === item ? null : item)]. *)
Definition pressProfession (selectedProfession : option string) (item : string)
    : option string :=
  match selectedProfession with
  | Some p => if (p =? item)%string then None else Some item
  | None => Some item
  end.

(** The distances offered by the buttons of the search screen. *)
Definition DISTANCES : list float := [10; 25; 50; 100]%float.

(** The coordinates of a position reading: the [latitude] and
    [longitude] that [getCurrentLocation] takes out of [location.coords]. *)
Definition position_of (location : LocationObject) : LocationCoordinates float :=
  {| latitude := coords_latitude (coords location);
     longitude := coords_longitude (coords location) |}.

(** ** Sample devices *)

(** A reading in Riyadh, at sea level and at rest. *)
Definition sample_reading : LocationObject :=
  {| coords := {| coords_latitude := 24.7136%float;
                  coords_longitude := 46.6753%float;
                  coords_accuracy := Some 5%float;
                  coords_altitude := Some 0%float;
                  coords_heading := None;
                  coords_speed := Some 0%float |} |}.

(** A device on which the permission is already granted. *)
Definition device_granted : ExpoLocation := {|
  requestForegroundPermissionsAsync := Resolved granted;
  getForegroundPermissionsAsync := Resolved granted;
  getCurrentPositionAsync := Resolved sample_reading;
  reverseGeocodeAsync := fun _ =>
    Resolved [{| street := None; city := Some "الرياض"; region := Some "" |}];
  geocodeAsync := fun _ => Resolved [];
  watchPositionAsync := Resolved 1%nat
|}.

(** A device on which the user refuses the permission. *)
Definition device_denied : ExpoLocation := {|
  requestForegroundPermissionsAsync := Resolved denied;
  getForegroundPermissionsAsync := Resolved undetermined;
  getCurrentPositionAsync := Rejected (ErrorObject "Not authorized to use location services");
  reverseGeocodeAsync := fun _ => Rejected OtherValue;
  geocodeAsync := fun _ => Rejected OtherValue;
  watchPositionAsync := Rejected (ErrorObject "Not authorized to use location services")
|}.

(** [atan2_series] with the rule of ECMAScript for an argument that is
    not a number. *)
Definition atan2_checked (y x : float) : float :=
  if is_nan y || is_nan x then nan else atan2_series y x.

(** ** [Math.sin], [Math.cos] and [Math.atan2] at given arguments *)

(** The entry of [entries] at [x], and [otherwise x] when there is none. *)
Definition table (entries : list (float * float)) (otherwise : float -> float)
    (x : float) : float :=
  match find (fun entry => (fst entry =? x)%float) entries with
  | Some entry => snd entry
  | None => otherwise x
  end.

(** The sine, correctly rounded to binary64, at the six arguments the
    runs on (8, 0), (-8, 180) and on (12.5, 0), (-12.499984, 179.99874)
    reach. *)
Definition sin_rounded : float -> float :=
  table [(-0x1.1df46a2529d39p-3, -0x1.1d06c968d9e19p-3);
         (0x1.921fb54442d18p+0, 0x1p+0);
         (-0x1.becdd31c8b13cp-3, -0x1.bb449eef947d5p-3);
         (0x1.becdd31c8b13cp-3, 0x1.bb449eef947d5p-3);
         (0x1.921efccaa1090p+0, 0x1.ffffffff7b10fp-1);
         (-0x1.921efccaa1090p+0, -0x1.ffffffff7b10fp-1)]%float sin_series.

(** The cosine, correctly rounded, at the latitudes of those runs. *)
Definition cos_rounded : float -> float :=
  table [(0x1.1df46a2529d39p-3, 0x1.fb046a930947ap-1);
         (-0x1.1df46a2529d39p-3, 0x1.fb046a930947ap-1);
         (0x1.becde5da115a9p-3, 0x1.f3dd11fb974b6p-1);
         (-0x1.becdc05f04cd1p-3, 0x1.f3dd1402c720dp-1)]%float cos_series.

(** The arc tangent of [y / x], correctly rounded, at the two pairs the
    runs on (12.5, 0), (-12.499984, 179.99874) reach. *)
Definition atan2_rounded (y x : float) : float :=
  if (y =? 0x1.ffffffff8145bp-1)%float && (x =? 0x1.683c1d1d46be5p-17)%float
  then 0x1.921f01263442dp+0%float
  else if (y =? 0x1.ffffffff8145bp-1)%float && (x =? 0x1.683c287c168dbp-17)%float
  then 0x1.921f01262e937p+0%float
  else atan2_checked y x.

Definition ieee_rounded : Number float := ieee sin_rounded cos_rounded atan2_rounded.

(** ** The parameters of a redirect, as the fallback reads them *)


(** * Properties *)

(** ** Sample runs *)

(** With the sample functions, the two mock workers are 1.8 km apart, one
    degree of longitude on the equator is 111.2 km, and the criteria
    select as expected. *)
Example distance_between_mock_workers :
  map (fun w => @calculateDistance float ieee_series
                  {| latitude := 24.7136%float; longitude := 46.6753%float |} (location w))
      MOCK_WORKERS
  = [0%float; 1.8%float].
Proof. vm_compute. reflexivity. Qed.

Example one_degree_on_the_equator :
  @calculateDistance float ieee_series
    {| latitude := 0%float; longitude := 0%float |}
    {| latitude := 0%float; longitude := 1%float |}
  = 111.2%float.
Proof. vm_compute. reflexivity. Qed.

Example filter_by_profession :
  map (@id float)
      (@filterWorkers float ieee_series MOCK_WORKERS "" (Some "كهربائي") 50%float
         (Some {| latitude := 24.7245%float; longitude := 46.6881%float |}))
  = ["1"].
Proof. vm_compute. reflexivity. Qed.

Example filter_by_tag_and_radius :
  map (@id float)
      (@filterWorkers float ieee_series MOCK_WORKERS "تلوين" None 1%float
         (Some {| latitude := 24.7245%float; longitude := 46.6881%float |}))
  = ["2"].
Proof. vm_compute. reflexivity. Qed.

Example decode_samples :
  map decodeURIComponent ["a%20b"; "%E2%82%AC"; "%"; "%C0%80"; "%ED%A0%80"]
  = [Some "a b"; Some "€"; None; None; None].
Proof. reflexivity. Qed.

Example round_samples :
  map Math_round_float [2.5; -2.5; 0.4; -0.5; 0x1.fffffffffffffp-2; 17.5]%float
  = [3; -2; 0; -0; 0; 18]%float.
Proof. vm_compute. reflexivity. Qed.

(** ** Lists *)

Lemma filter_all {A : Type} (f : A -> bool) (l : list A) :
  (forall x, f x = true) -> filter f l = l.
Proof.
  intros Hf. induction l as [|x l IH]; simpl; [reflexivity|].
  rewrite Hf, IH. reflexivity.
Qed.

Lemma filter_twice {A : Type} (f g : A -> bool) (l : list A) :
  filter g (filter f l) = filter (fun x => f x && g x) l.
Proof.
  induction l as [|x l IH]; simpl; [reflexivity|].
  destruct (f x); simpl; [destruct (g x)|]; rewrite IH; reflexivity.
Qed.

Lemma forallb_Permutation {A : Type} (f : A -> bool) (l l' : list A) :
  Permutation l l' -> forallb f l = forallb f l'.
Proof.
  induction 1 as [|x l l' _ IH|x y l|l l' l'' _ IH1 _ IH2]; simpl.
  - reflexivity.
  - rewrite IH. reflexivity.
  - destruct (f x), (f y); reflexivity.
  - rewrite IH1. exact IH2.
Qed.

Lemma subseq_refl {A : Type} (l : list A) : subseq l l.
Proof. induction l; constructor; assumption. Qed.

Lemma subseq_trans {A : Type} (l1 l2 l3 : list A) :
  subseq l1 l2 -> subseq l2 l3 -> subseq l1 l3.
Proof.
  intros H12 H23. revert l1 H12.
  induction H23 as [|x l2 l3 _ IH|x l2 l3 _ IH]; intros l1 H12.
  - exact H12.
  - apply subseq_skip. apply IH. exact H12.
  - inversion H12; subst.
    + apply subseq_skip. apply IH. assumption.
    + apply subseq_keep. apply IH. assumption.
Qed.

Lemma subseq_filter {A : Type} (f : A -> bool) (l : list A) :
  subseq (filter f l) l.
Proof.
  induction l as [|x l IH]; simpl; [constructor|].
  destruct (f x); constructor; exact IH.
Qed.

Lemma subseq_In {A : Type} (l1 l2 : list A) :
  subseq l1 l2 -> forall x, In x l1 -> In x l2.
Proof.
  induction 1 as [|y l1 l2 _ IH|y l1 l2 _ IH]; intros x Hx.
  - exact Hx.
  - right. apply IH. exact Hx.
  - destruct Hx as [->|Hx]; [left; reflexivity|right; apply IH; exact Hx].
Qed.

(** Whatever is counted, the shorter list has no more of it: nothing is
    duplicated. *)
Lemma subseq_count {A : Type} (l1 l2 : list A) :
  subseq l1 l2 -> forall f : A -> bool,
  (List.length (filter f l1) <= List.length (filter f l2))%nat.
Proof.
  induction 1 as [|y l1 l2 _ IH|y l1 l2 _ IH]; intros f; simpl.
  - apply Nat.le_refl.
  - specialize (IH f). destruct (f y); simpl; lia.
  - specialize (IH f). destruct (f y); simpl; lia.
Qed.

(** ** The filter effect *)

Section SearchFacts.
Context {num : Type} {N : Number num}.

Lemma applyStep_keeps (c : Criteria) (s : Step) (l : list (WorkerProfile num)) :
  applyStep c s l = filter (keeps c s) l.
Proof.
  destruct s; unfold applyStep, keeps.
  - destruct (selectedProfession c) as [p|].
    + destruct (truthy p); [reflexivity|]. symmetry. apply filter_all. reflexivity.
    + symmetry. apply filter_all. reflexivity.
  - destruct (truthy (searchQuery c)); [reflexivity|].
    symmetry. apply filter_all. reflexivity.
  - destruct (userLocation c); [reflexivity|].
    symmetry. apply filter_all. reflexivity.
Qed.

(** Steps applied one after the other keep what every one of them keeps. *)
Lemma applySteps_filter (c : Criteria) (order : list Step) (l : list (WorkerProfile num)) :
  applySteps c order l = filter (fun w => forallb (fun s => keeps c s w) order) l.
Proof.
  unfold applySteps. revert l.
  induction order as [|s order IH]; intros l; simpl.
  - symmetry. apply filter_all. reflexivity.
  - rewrite IH, applyStep_keeps, filter_twice. reflexivity.
Qed.

(** The effect is the three steps in the order of the source. *)
Lemma filterWorkers_steps (c : Criteria) (workers : list (WorkerProfile num)) :
  filterWorkers workers (searchQuery c) (selectedProfession c) (maxDistance c) (userLocation c)
  = applySteps c [ByProfession; ByQuery; ByDistance] workers.
Proof. reflexivity. Qed.

End SearchFacts.

(** ** Claims on the filter effect *)

(** C2. Applying the profession, free-text and radius filters in any
    order gives the list the effect computes in its fixed order. *)
Theorem filter_order_irrelevant {num : Type} {N : Number num}
    (c : Criteria) (order : list Step) (workers : list (WorkerProfile num)) :
  Permutation order [ByProfession; ByQuery; ByDistance] ->
  applySteps c order workers
  = filterWorkers workers (searchQuery c) (selectedProfession c)
      (maxDistance c) (userLocation c).
Proof.
  intros Hperm.
  rewrite filterWorkers_steps, !applySteps_filter.
  apply filter_ext. intros w.
  apply forallb_Permutation. exact Hperm.
Qed.

Lemma filter_order_irrelevant_witness :
  Permutation [ByDistance; ByProfession; ByQuery] [ByProfession; ByQuery; ByDistance]
  /\ @applySteps float ieee_series
       {| searchQuery := "كهربائي";
          selectedProfession := Some "كهربائي";
          maxDistance := 50%float;
          userLocation := Some {| latitude := 24.72%float; longitude := 46.68%float |} |}
       [ByDistance; ByProfession; ByQuery] MOCK_WORKERS
     = @filterWorkers float ieee_series MOCK_WORKERS "كهربائي" (Some "كهربائي") 50%float
         (Some {| latitude := 24.72%float; longitude := 46.68%float |}).
Proof.
  assert (Hperm : Permutation [ByDistance; ByProfession; ByQuery]
                              [ByProfession; ByQuery; ByDistance]).
  { apply perm_trans with [ByProfession; ByDistance; ByQuery].
    - apply perm_swap.
    - apply perm_skip. apply perm_swap. }
  split; [exact Hperm|].
  exact (@filter_order_irrelevant float ieee_series
           {| searchQuery := "كهربائي";
              selectedProfession := Some "كهربائي";
              maxDistance := 50%float;
              userLocation := Some {| latitude := 24.72%float; longitude := 46.68%float |} |}
           [ByDistance; ByProfession; ByQuery] MOCK_WORKERS Hperm).
Defined.

(** C10. Whatever the criteria, the filtered list is the input with some
    workers removed: its members are members of the input, in the same
    order, none counted more often than in the input; with no criterion
    active it is the input. *)
Theorem filterWorkers_subseq {num : Type} {N : Number num}
    (workers : list (WorkerProfile num)) (query : string)
    (chosen : option string) (radius : num)
    (origin : option (LocationCoordinates num)) :
  subseq (filterWorkers workers query chosen radius origin) workers
  /\ (forall w, In w (filterWorkers workers query chosen radius origin) -> In w workers)
  /\ (forall f : WorkerProfile num -> bool,
        (List.length (filter f (filterWorkers workers query chosen radius origin))
         <= List.length (filter f workers))%nat)
  /\ filterWorkers workers "" None radius None = workers
  /\ filterWorkers workers "" (Some "") radius None = workers.
Proof.
  assert (Hsub : subseq (filterWorkers workers query chosen radius origin) workers).
  { pose (c := {| searchQuery := query; selectedProfession := chosen;
                  maxDistance := radius; userLocation := origin |}).
    change (subseq (filterWorkers workers (searchQuery c) (selectedProfession c)
                      (maxDistance c) (userLocation c)) workers).
    rewrite filterWorkers_steps, applySteps_filter. apply subseq_filter. }
  repeat split.
  - exact Hsub.
  - apply subseq_In. exact Hsub.
  - apply subseq_count. exact Hsub.
Qed.

(** ** The redirect URL *)

Section HandshakeFacts.
Variable new_URL : string -> option URL.

(** The two calls of the constructor are one call on the normalized
    string: the replacement leaves any other URL as it is. *)
Lemma constructor_call (result_url : string) :
  (if prefix "exp://" result_url || prefix "exps://" result_url
   then new_URL (replace_exp_scheme result_url)
   else new_URL result_url)
  = new_URL (replace_exp_scheme result_url).
Proof.
  unfold replace_exp_scheme.
  destruct (prefix "exps://" result_url), (prefix "exp://" result_url); reflexivity.
Qed.

Lemma replace_exp (rest : string) :
  replace_exp_scheme ("exp://" ++ rest) = "http://" ++ rest.
Proof. destruct rest; reflexivity. Qed.

Lemma replace_exps (rest : string) :
  replace_exp_scheme ("exps://" ++ rest) = "http://" ++ rest.
Proof. destruct rest; reflexivity. Qed.

Lemma replace_other (s : string) :
  prefix "exp://" s = false -> prefix "exps://" s = false -> replace_exp_scheme s = s.
Proof. intros H1 H2. unfold replace_exp_scheme. rewrite H1, H2. reflexivity. Qed.

(** The [try] block, when the constructor returns. *)
Lemma handleLogin_parsed (os : PlatformOS) (loginUrl result_url : string) (url : URL) :
  os <> web ->
  truthy result_url = true ->
  new_URL (replace_exp_scheme result_url) = Some url ->
  handleLogin new_URL os loginUrl (success result_url)
  = let code := URLSearchParams_get (searchParams url) "code" in
    let state := URLSearchParams_get (searchParams url) "state" in
    let error := URLSearchParams_get (searchParams url) "error" in
    if truthy_opt error then OAuthError (unwrap error)
    else if truthy_opt code && truthy_opt state
    then Navigated (unwrap code) (unwrap state)
    else MissingCodeOrState.
Proof.
  intros Hos Hurl Hparse. unfold handleLogin.
  rewrite Hurl, constructor_call, Hparse.
  destruct os; [contradiction Hos; reflexivity| | | |]; reflexivity.
Qed.

(** The [catch] block, when the constructor throws. *)
Lemma handleLogin_fallback (os : PlatformOS) (loginUrl result_url : string) :
  os <> web ->
  truthy result_url = true ->
  new_URL (replace_exp_scheme result_url) = None ->
  handleLogin new_URL os loginUrl (success result_url)
  = match match_param "code" result_url, match_param "state" result_url with
    | Some c, Some s =>
        match decodeURIComponent c with
        | Some code =>
            match decodeURIComponent s with
            | Some state => Navigated code state
            | None => LoginError
            end
        | None => LoginError
        end
    | _, _ => CouldNotExtract
    end.
Proof.
  intros Hos Hurl Hparse. unfold handleLogin.
  rewrite Hurl, constructor_call, Hparse.
  destruct os; [contradiction Hos; reflexivity| | | |]; reflexivity.
Qed.

(** On the [try] path a non-empty [error] parameter ends the run, whatever
    [code] and [state] hold. *)
Lemma error_param_fails_when_parsed (os : PlatformOS) (loginUrl result_url : string)
    (url : URL) (e : string) :
  os <> web ->
  truthy result_url = true ->
  new_URL (replace_exp_scheme result_url) = Some url ->
  URLSearchParams_get (searchParams url) "error" = Some e ->
  truthy e = true ->
  handleLogin new_URL os loginUrl (success result_url) = OAuthError e.
Proof.
  intros Hos Hurl Hparse Herr He.
  rewrite (@handleLogin_parsed os loginUrl result_url url Hos Hurl Hparse).
  cbv zeta. rewrite Herr. simpl. rewrite He. reflexivity.
Qed.

End HandshakeFacts.

Lemma error_param_fails_when_parsed_witness :
  handleLogin URL_parse ios "https://auth.example/login"
    (success "exp://host/oauth/callback?error=access_denied&code=ABC&state=XYZ")
  = OAuthError "access_denied".
Proof.
  assert (Hos : ios <> web) by discriminate.
  exact (@error_param_fails_when_parsed URL_parse ios "https://auth.example/login"
           "exp://host/oauth/callback?error=access_denied&code=ABC&state=XYZ"
           {| searchParams := [("error", "access_denied"); ("code", "ABC"); ("state", "XYZ")] |}
           "access_denied" Hos eq_refl eq_refl eq_refl eq_refl).
Defined.

(** *** The regular expressions of the fallback *)

Lemma includes_prefix (s sub : string) :
  includes s sub = false -> prefix sub s = false.
Proof.
  destruct s; simpl; intros H; apply orb_false_iff in H; apply H.
Qed.

Lemma includes_tail (c : ascii) (s sub : string) :
  includes (String c s) sub = false -> includes s sub = false.
Proof.
  simpl. intros H. apply orb_false_iff in H. apply H.
Qed.

(** A key that is no prefix of [pre] is no prefix of [pre] followed by a
    character the key does not hold. *)
Lemma prefix_app_false (k pre : string) (c : ascii) (rest : string) :
  ~ In c (list_ascii_of_string k) ->
  prefix k pre = false ->
  prefix k (pre ++ String c rest) = false.
Proof.
  revert pre. induction k as [|a k IH]; intros pre Hc Hk.
  - destruct pre; simpl in Hk; discriminate Hk.
  - destruct pre as [|b pre]; simpl in *.
    + destruct (ascii_dec a c) as [->|_]; [|reflexivity].
      exfalso. apply Hc. left. reflexivity.
    + destruct (ascii_dec a b); [|reflexivity].
      apply IH; [|exact Hk]. intros Hin. apply Hc. right. exact Hin.
Qed.

(** The search for a parameter passes over a text that nowhere holds
    [name=]. *)
Lemma match_param_skip (name pre : string) (c : ascii) (rest : string) :
  ~ In c (list_ascii_of_string (name ++ "=")) ->
  includes pre (name ++ "=") = false ->
  match_param name (pre ++ String c rest) = match_param name (String c rest).
Proof.
  intros Hc. induction pre as [|a pre IH]; intros Hpre.
  - reflexivity.
  - change (String a pre ++ String c rest) with (String a (pre ++ String c rest)).
    cbn [match_param].
    rewrite (@prefix_app_false _ _ _ rest Hc (@includes_prefix _ _ (@includes_tail _ _ _ Hpre))).
    rewrite andb_false_r. cbn [truthy String.eqb negb].
    apply IH. exact (@includes_tail _ _ _ Hpre).
Qed.









(** ** Claims on the handshake *)

(** C1, at an input that breaks it. A redirect carrying
    [error=access_denied] beside [code] and [state], on which the
    constructor throws, is not refused: the fallback never looks for
    [error] and the run navigates to the callback route. *)
Theorem fallback_ignores_error (new_URL : string -> option URL)
    (os : PlatformOS) (loginUrl : string) :
  os <> web ->
  new_URL "/oauth/callback?error=access_denied&code=A1&state=B2" = None ->
  handleLogin new_URL os loginUrl
    (success "/oauth/callback?error=access_denied&code=A1&state=B2")
  = Navigated "A1" "B2".
Proof.
  intros Hos Hparse.
  rewrite handleLogin_fallback; [reflexivity|exact Hos|reflexivity|exact Hparse].
Qed.

Lemma fallback_ignores_error_witness :
  ios <> web
  /\ URL_parse "/oauth/callback?error=access_denied&code=A1&state=B2" = None
  /\ handleLogin URL_parse ios "https://auth.example/login"
       (success "/oauth/callback?error=access_denied&code=A1&state=B2")
     = Navigated "A1" "B2".
Proof.
  assert (Hos : ios <> web) by discriminate.
  assert (Hparse : URL_parse "/oauth/callback?error=access_denied&code=A1&state=B2" = None)
    by reflexivity.
  split; [exact Hos|]. split; [exact Hparse|].
  exact (@fallback_ignores_error URL_parse ios "https://auth.example/login" Hos Hparse).
Defined.

(** C5. The redirect [exp://host/oauth/callback?code=ABC&state=XYZ] is
    handed to the constructor with its scheme replaced by [http://]; with
    the two parameters read from it, the run navigates to the callback
    route with [code = "ABC"] and [state = "XYZ"]. *)
Theorem exp_redirect_reaches_callback (new_URL : string -> option URL)
    (os : PlatformOS) (loginUrl : string) :
  os <> web ->
  new_URL "http://host/oauth/callback?code=ABC&state=XYZ"
  = Some {| searchParams := [("code", "ABC"); ("state", "XYZ")] |} ->
  replace_exp_scheme "exp://host/oauth/callback?code=ABC&state=XYZ"
  = "http://host/oauth/callback?code=ABC&state=XYZ"
  /\ handleLogin new_URL os loginUrl (success "exp://host/oauth/callback?code=ABC&state=XYZ")
     = Navigated "ABC" "XYZ"
  /\ Success (handleLogin new_URL os loginUrl
                (success "exp://host/oauth/callback?code=ABC&state=XYZ")) = true.
Proof.
  intros Hos Hparse.
  assert (Hrun : handleLogin new_URL os loginUrl
                   (success "exp://host/oauth/callback?code=ABC&state=XYZ")
                 = Navigated "ABC" "XYZ").
  { rewrite (@handleLogin_parsed new_URL os loginUrl
               "exp://host/oauth/callback?code=ABC&state=XYZ" _ Hos eq_refl Hparse).
    reflexivity. }
  split; [reflexivity|]. split; [exact Hrun|]. rewrite Hrun. reflexivity.
Qed.

Lemma exp_redirect_reaches_callback_witness :
  android <> web
  /\ URL_parse "http://host/oauth/callback?code=ABC&state=XYZ"
     = Some {| searchParams := [("code", "ABC"); ("state", "XYZ")] |}
  /\ handleLogin URL_parse android "https://auth.example/login"
       (success "exp://host/oauth/callback?code=ABC&state=XYZ")
     = Navigated "ABC" "XYZ".
Proof.
  assert (Hos : android <> web) by discriminate.
  assert (Hparse : URL_parse "http://host/oauth/callback?code=ABC&state=XYZ"
                   = Some {| searchParams := [("code", "ABC"); ("state", "XYZ")] |})
    by reflexivity.
  split; [exact Hos|]. split; [exact Hparse|].
  exact (proj1 (proj2 (@exp_redirect_reaches_callback URL_parse android
                         "https://auth.example/login" Hos Hparse))).
Defined.


(** The same reading takes a fragment for a part of [state], where the
    constructor, on a text it accepts, leaves the fragment out of the
    parameters: the fallback does not stop at ["#"]. *)
Lemma fallback_keeps_fragment :
  handleLogin URL_parse ios "https://auth.example/login"
    (success "/oauth/callback?code=A1&state=B2#top")
  = Navigated "A1" "B2#top"
  /\ handleLogin URL_parse ios "https://auth.example/login"
       (success "http://host/oauth/callback?code=A1&state=B2#top")
     = Navigated "A1" "B2".
Proof. split; reflexivity. Qed.



(** ** Distances in exact arithmetic *)

Section ExactDistance.
Local Open Scope R_scope.

Lemma toRad_radians (x : R) : @toRad R reals x = radians x.
Proof. unfold toRad, radians. cbn. field. Qed.

(** The value computed over the reals, with the argument of the square
    roots named. *)
Lemma calculateDistance_reals (p q : LocationCoordinates R) :
  @calculateDistance R reals p q
  = round_R (6371 * (2 * atan2_R (R_sqrt.sqrt (haversine_a p q))
                                 (R_sqrt.sqrt (1 - haversine_a p q))) * 10) / 10.
Proof.
  unfold calculateDistance. cbn -[toRad].
  rewrite !toRad_radians.
  replace (Rtrigo_def.sin (radians (latitude q - latitude p) / 2)
           * Rtrigo_def.sin (radians (latitude q - latitude p) / 2)
           + Rtrigo_def.sin (radians (longitude q - longitude p) / 2)
             * Rtrigo_def.sin (radians (longitude q - longitude p) / 2)
             * Rtrigo_def.cos (radians (latitude p))
             * Rtrigo_def.cos (radians (latitude q)))
    with (haversine_a p q) by (unfold haversine_a, hav; ring).
  reflexivity.
Qed.

Lemma hav_range (t : R) : 0 <= hav t <= 1.
Proof.
  unfold hav. pose proof (SIN_bound (t / 2)) as [H1 H2]. split; nra.
Qed.

Lemma hav_cos (t : R) : hav t = (1 - Rtrigo_def.cos t) / 2.
Proof.
  unfold hav. replace t with (2 * (t / 2)) at 3 by field.
  rewrite cos_2a_sin. field.
Qed.

Lemma cos_product (x y : R) :
  Rtrigo_def.cos x * Rtrigo_def.cos y
  = (Rtrigo_def.cos (x - y) + Rtrigo_def.cos (x + y)) / 2.
Proof. rewrite cos_minus, cos_plus. field. Qed.

Lemma radians_minus (x y : R) : radians (x - y) = radians x - radians y.
Proof. unfold radians. field. Qed.

(** The square roots are taken of numbers between 0 and 1: the formula
    never leaves their domain. *)
Lemma haversine_a_range (p q : LocationCoordinates R) : 0 <= haversine_a p q <= 1.
Proof.
  unfold haversine_a. rewrite (radians_minus (latitude q) (latitude p)).
  pose proof (hav_range (radians (longitude q - longitude p))) as Ht.
  pose proof (hav_range (radians (latitude q) - radians (latitude p))) as Hs.
  pose proof (hav_cos (radians (latitude q) - radians (latitude p))) as Hc.
  pose proof (cos_product (radians (latitude p)) (radians (latitude q))) as Hp.
  replace (Rtrigo_def.cos (radians (latitude p) - radians (latitude q)))
    with (Rtrigo_def.cos (radians (latitude q) - radians (latitude p))) in Hp
    by (rewrite <- cos_neg; f_equal; ring).
  pose proof (COS_bound (radians (latitude p) + radians (latitude q))) as Hb.
  set (s := hav (radians (latitude q) - radians (latitude p))) in *.
  set (t := hav (radians (longitude q - longitude p))) in *.
  set (c := Rtrigo_def.cos (radians (latitude p)) * Rtrigo_def.cos (radians (latitude q))) in *.
  assert (Hcs : - s <= c <= 1 - s) by lra.
  assert (H1 : 0 <= (c + s) * t) by (apply Rmult_le_pos; lra).
  assert (H2 : 0 <= (1 - s - c) * t) by (apply Rmult_le_pos; lra).
  assert (H3 : 0 <= (1 - s) * (1 - t)) by (apply Rmult_le_pos; lra).
  assert (H4 : 0 <= s * (1 - t)) by (apply Rmult_le_pos; lra).
  split; lra.
Qed.

Lemma atan2_R_nonneg (y x : R) : 0 <= y -> 0 <= atan2_R y x.
Proof.
  intros Hy. unfold atan2_R.
  destruct (Rlt_dec 0 x) as [Hx|Hx].
  - destruct (Req_dec y 0) as [->|Hy0].
    + unfold Rdiv. rewrite Rmult_0_l, atan_0. lra.
    + rewrite <- atan_0. left. apply atan_increasing.
      apply Rdiv_lt_0_compat; lra.
  - destruct (Rlt_dec x 0) as [Hx'|Hx'].
    + destruct (Rle_dec 0 y) as [_|Hn]; [|contradiction].
      pose proof (atan_bound (y / x)). lra.
    + destruct (Rlt_dec 0 y); [pose proof PI_RGT_0; lra|].
      destruct (Rlt_dec y 0); lra.
Qed.

(** On the quarter circle [atan2] is the arcsine. *)
Lemma atan2_R_sqrt (a : R) :
  0 <= a <= 1 -> atan2_R (R_sqrt.sqrt a) (R_sqrt.sqrt (1 - a)) = asin (R_sqrt.sqrt a).
Proof.
  intros [H0 H1]. destruct (Req_dec a 1) as [->|Hne].
  - replace (1 - 1) with 0 by ring. rewrite sqrt_0, sqrt_1, asin_1.
    unfold atan2_R.
    destruct (Rlt_dec 0 0); [lra|].
    destruct (Rlt_dec 0 0); [lra|].
    destruct (Rlt_dec 0 1); [reflexivity|lra].
  - assert (Hpos : 0 < R_sqrt.sqrt (1 - a)) by (apply sqrt_lt_R0; lra).
    unfold atan2_R. destruct (Rlt_dec 0 (R_sqrt.sqrt (1 - a))); [|contradiction].
    rewrite asin_atan.
    + rewrite Rsqr_sqrt by exact H0. reflexivity.
    + split.
      * pose proof (sqrt_pos a). lra.
      * rewrite <- sqrt_1. apply sqrt_lt_1_alt. lra.
Qed.

Lemma round_R_close (x : R) : - / 2 < round_R x - x <= / 2.
Proof.
  unfold round_R. pose proof (Zfloor_bound (x + / 2)) as [Hl Hu]. lra.
Qed.

Lemma round_R_nonneg (x : R) : 0 <= x -> 0 <= round_R x.
Proof.
  intros Hx. unfold round_R. apply IZR_le.
  apply Zfloor_lub. simpl. lra.
Qed.

Lemma hav_swap (x y : R) : hav (radians (x - y)) = hav (radians (y - x)).
Proof.
  unfold hav.
  replace (radians (x - y) / 2) with (- (radians (y - x) / 2)) by (unfold radians; field).
  rewrite sin_neg. ring.
Qed.

Lemma haversine_a_sym (p q : LocationCoordinates R) : haversine_a p q = haversine_a q p.
Proof.
  unfold haversine_a.
  rewrite (hav_swap (latitude q)), (hav_swap (longitude q)). ring.
Qed.

Lemma calculateDistance_reals_nonneg (p q : LocationCoordinates R) :
  0 <= @calculateDistance R reals p q.
Proof.
  rewrite calculateDistance_reals.
  pose proof (@atan2_R_nonneg _ (R_sqrt.sqrt (1 - haversine_a p q))
                (sqrt_pos (haversine_a p q))) as Hc.
  assert (Hr : 0 <= round_R (6371 * (2 * atan2_R (R_sqrt.sqrt (haversine_a p q))
                                          (R_sqrt.sqrt (1 - haversine_a p q))) * 10))
    by (apply round_R_nonneg; lra).
  lra.
Qed.

(** Over the reals the distance from a point to itself is 0. *)
Lemma calculateDistance_reals_same (p : LocationCoordinates R) :
  @calculateDistance R reals p p = 0.
Proof.
  rewrite calculateDistance_reals.
  assert (E : haversine_a p p = 0).
  { unfold haversine_a, hav, radians.
    replace ((latitude p - latitude p) * PI / 180 / 2) with 0 by field.
    replace ((longitude p - longitude p) * PI / 180 / 2) with 0 by field.
    rewrite sin_0. ring. }
  rewrite E, sqrt_0. replace (1 - 0) with 1 by ring. rewrite sqrt_1.
  unfold atan2_R. destruct (Rlt_dec 0 1); [|lra].
  unfold Rdiv at 2. rewrite Rmult_0_l, atan_0.
  unfold round_R. replace (6371 * (2 * 0) * 10 + / 2) with (/ 2) by ring.
  rewrite (Zfloor_eq 0); [simpl; lra|simpl; lra].
Qed.

End ExactDistance.

(** ** Distances in binary64 arithmetic *)

Lemma finite_cases (x : float) :
  is_finite x = true ->
  (exists s, Prim2SF x = S754_zero s) \/ (exists s m e, Prim2SF x = S754_finite s m e).
Proof.
  unfold is_finite, Prim2SF. intros H.
  destruct (is_nan x); [discriminate H|].
  destruct (is_zero x); [left; eauto|].
  destruct (is_infinity x); [discriminate H|].
  destruct (Z.frexp x) as [r ex].
  destruct (shr_fexp prec emax (Uint63Axioms.to_Z (normfr_mantissa r)) (ex - prec) loc_Exact)
    as [sh e'].
  destruct (shr_m sh); eauto.
Qed.

Lemma sub_diag (x : float) : is_finite x = true -> (x - x)%float = 0%float.
Proof.
  intros H. apply Prim2SF_inj. rewrite sub_spec.
  destruct (@finite_cases x H) as [[s ->]|[s [m [e ->]]]].
  - destruct s; reflexivity.
  - unfold SF64sub, SFsub. rewrite Z.sub_diag. reflexivity.
Qed.

Lemma zero_times_twice (c : float) :
  is_finite c = true -> (0 * c * c)%float = 0%float.
Proof.
  intros H. apply Prim2SF_inj. rewrite !mul_spec.
  destruct (@finite_cases c H) as [[s ->]|[s [m [e ->]]]]; destruct s; reflexivity.
Qed.

Lemma eqb_leb (x y : float) : (x =? y)%float = true -> (x <=? y)%float = true.
Proof.
  rewrite eqb_spec, leb_spec. unfold SFeqb, SFleb.
  destruct (SFcompare (Prim2SF x) (Prim2SF y)) as [[]|]; congruence.
Qed.

(** Rounding a mantissa under a clear sign bit leaves it clear. *)
Lemma round_aux_sign (mx ex : Z) (lx : SpecFloat.location) :
  sign_clear (binary_round_aux prec emax false mx ex lx) = true.
Proof.
  unfold binary_round_aux.
  destruct (shr_fexp prec emax mx ex lx) as [mrs' e'].
  destruct (shr_fexp prec emax _ e' loc_Exact) as [mrs'' e''].
  destruct (shr_m mrs''); [reflexivity| |reflexivity].
  destruct (Z.leb e'' (emax - prec)); reflexivity.
Qed.

Lemma sign_clear_not_negative (f : spec_float) :
  sign_clear f = true -> not_negative f = true.
Proof. destruct f as [[]|[]| |[] ? ?]; simpl; congruence. Qed.

Lemma sign_bit_clear (f : spec_float) : sign_clear f = true -> sign_bit f = false.
Proof. destruct f as [[]|[]| |[] ? ?]; simpl; congruence. Qed.

Lemma get_sign_spec (y : float) : get_sign y = sign_bit (Prim2SF y).
Proof.
  unfold get_sign, is_zero. rewrite eqb_spec.
  change (Prim2SF zero) with (S754_zero false).
  destruct (Prim2SF y) as [[]|[]| |[] m e] eqn:E;
    cbv [SFeqb SFcompare]; cbv iota beta zeta;
    rewrite ltb_spec, ?div_spec, E; reflexivity.
Qed.

Lemma ltb_zero_spec (y : float) :
  (y <? 0)%float = negb (not_negative (Prim2SF y)).
Proof.
  rewrite ltb_spec. destruct (Prim2SF y) as [[]|[]| |[] ? ?]; reflexivity.
Qed.

(** A square root has its sign bit set only at [-0]. *)
Lemma sqrt_sign (x : float) :
  Prim2SF x <> S754_zero true -> get_sign (PrimFloat.sqrt x) = false.
Proof.
  intros Hx. rewrite get_sign_spec, sqrt_spec.
  destruct (Prim2SF x) as [[]|[]| |[] m e]; try reflexivity; try congruence.
  unfold SF64sqrt, SFsqrt.
  destruct (SFsqrt_core_binary prec emax (Z.pos m) e) as [[mz ez] lz].
  apply sign_bit_clear, round_aux_sign.
Qed.

Lemma positive_cases (k : float) :
  (0 <? k)%float = true ->
  Prim2SF k = S754_infinity false \/ exists m e, Prim2SF k = S754_finite false m e.
Proof.
  rewrite ltb_spec. change (Prim2SF 0) with (S754_zero false).
  destruct (Prim2SF k) as [[]|[]| |[] m e]; cbv [SFltb SFcompare];
    try discriminate; eauto.
Qed.

Lemma mul_pos_sign (k y : float) :
  (0 <? k)%float = true ->
  (y <? 0)%float = false -> (k * y <? 0)%float = false.
Proof.
  intros Hk. rewrite !ltb_zero_spec, mul_spec.
  destruct (@positive_cases k Hk) as [->|[m [e ->]]];
    destruct (Prim2SF y) as [[]|[]| |[] m' e']; simpl; try congruence.
  intros _. rewrite (@sign_clear_not_negative _ (round_aux_sign _ _ _)). reflexivity.
Qed.

Lemma mul_pos_sign_r (k y : float) :
  (0 <? k)%float = true ->
  (y <? 0)%float = false -> (y * k <? 0)%float = false.
Proof.
  intros Hk. rewrite !ltb_zero_spec, mul_spec.
  destruct (@positive_cases k Hk) as [->|[m [e ->]]];
    destruct (Prim2SF y) as [[]|[]| |[] m' e']; simpl; try congruence.
  intros _. rewrite (@sign_clear_not_negative _ (round_aux_sign _ _ _)). reflexivity.
Qed.

Lemma div_pos_sign (k y : float) :
  (0 <? k)%float = true ->
  (y <? 0)%float = false -> (y / k <? 0)%float = false.
Proof.
  intros Hk. rewrite !ltb_zero_spec, div_spec.
  destruct (@positive_cases k Hk) as [->|[m [e ->]]];
    destruct (Prim2SF y) as [[]|[]| |[] m' e']; simpl; try congruence.
  intros _.
  destruct (SFdiv_core_binary prec emax (Z.pos m') e' (Z.pos m) e) as [[mz ez] lz].
  rewrite (@sign_clear_not_negative _ (round_aux_sign _ _ _)). reflexivity.
Qed.

Lemma float_of_Z_pos_sign (p : positive) :
  (float_of_Z (Z.pos p) <? 0)%float = false.
Proof.
  rewrite ltb_zero_spec. unfold float_of_Z. rewrite of_uint63_spec.
  pose proof (Uint63.to_Z_bounded (Uint63.of_Z (Z.pos p))) as [Hl _].
  destruct (Uint63Axioms.to_Z (Uint63.of_Z (Z.pos p))) as [|q|q]; [reflexivity| |lia].
  unfold binary_normalize, binary_round.
  destruct (shl_align q 0 _) as [mz ez].
  rewrite (@sign_clear_not_negative _ (round_aux_sign _ _ _)). reflexivity.
Qed.

Lemma round_sign (x : float) :
  (x <? 0)%float = false -> (Math_round_float x <? 0)%float = false.
Proof.
  intros Hx. unfold Math_round_float.
  destruct (Prim2SF x) as [s|s| |s m e] eqn:E; try exact Hx.
  destruct (0 <=? e)%Z eqn:He; [exact Hx|].
  apply Z.leb_gt in He.
  rewrite ltb_zero_spec, E in Hx. destruct s; [discriminate Hx|].
  assert (Hn : (0 <= (cond_Zopp false (Z.pos m) * 2 + 2 ^ (- e)) / 2 ^ (1 - e))%Z).
  { apply Z.div_pos.
    - simpl cond_Zopp. pose proof (Z.pow_nonneg 2 (- e)). lia.
    - apply Z.pow_pos_nonneg; lia. }
  destruct ((cond_Zopp false (Z.pos m) * 2 + 2 ^ (- e)) / 2 ^ (1 - e))%Z as [|p|p].
  - reflexivity.
  - apply float_of_Z_pos_sign.
  - lia.
Qed.

Lemma negative_radius (d r : float) :
  (d <? 0)%float = false -> (r <? 0)%float = true -> (d <=? r)%float = false.
Proof.
  rewrite !ltb_zero_spec, leb_spec.
  destruct (Prim2SF d) as [[]|[]| |[] ? ?], (Prim2SF r) as [[]|[]| |[] ? ?];
    cbv [not_negative negb SFleb SFcompare]; congruence.
Qed.

(** Clear sign bits stay clear under product, quotient and sum. *)
Lemma mul_sign_clear (x y : float) :
  get_sign x = false -> get_sign y = false -> get_sign (x * y) = false.
Proof.
  rewrite !get_sign_spec, mul_spec.
  destruct (Prim2SF x) as [[]|[]| |[] m e], (Prim2SF y) as [[]|[]| |[] m' e'];
    simpl; try congruence.
  intros _ _. apply sign_bit_clear, round_aux_sign.
Qed.

Lemma div_sign_clear (x y : float) :
  get_sign x = false -> get_sign y = false -> get_sign (x / y) = false.
Proof.
  rewrite !get_sign_spec, div_spec.
  destruct (Prim2SF x) as [[]|[]| |[] m e], (Prim2SF y) as [[]|[]| |[] m' e'];
    simpl; try congruence.
  intros _ _.
  destruct (SFdiv_core_binary prec emax (Z.pos m) e (Z.pos m') e') as [[mz ez] lz].
  apply sign_bit_clear, round_aux_sign.
Qed.

Lemma add_sign_clear (x y : float) :
  get_sign x = false -> get_sign y = false -> get_sign (x + y) = false.
Proof.
  rewrite !get_sign_spec, add_spec.
  destruct (Prim2SF x) as [[]|[]| |[] m e], (Prim2SF y) as [[]|[]| |[] m' e'];
    simpl; try congruence.
  intros _ _. unfold binary_round.
  destruct (shl_align _ _ _) as [mz ez].
  apply sign_bit_clear, round_aux_sign.
Qed.

Lemma get_sign_ltb (y : float) : get_sign y = false -> (y <? 0)%float = false.
Proof.
  rewrite get_sign_spec, ltb_zero_spec.
  destruct (Prim2SF y) as [[]|[]| |[] ? ?]; simpl; congruence.
Qed.

Lemma positive_sign (x : float) : (0 <? x)%float = true -> get_sign x = false.
Proof.
  intros H. rewrite get_sign_spec.
  destruct (@positive_cases x H) as [->|[m [e ->]]]; reflexivity.
Qed.

(** The sample [atan2] returns no negative number above the x axis. *)
Lemma atan2_series_sign (y x : float) :
  get_sign y = false -> (atan2_series y x <? 0)%float = false.
Proof.
  intros Hy. unfold atan2_series.
  destruct (0 <? x)%float eqn:Hx.
  - apply get_sign_ltb. unfold atan_series.
    assert (Ht : get_sign (y / x) = false)
      by (apply div_sign_clear; [exact Hy|apply positive_sign; exact Hx]).
    apply div_sign_clear; [exact Ht|].
    apply add_sign_clear; [reflexivity|].
    apply mul_sign_clear; [reflexivity|].
    apply mul_sign_clear; exact Ht.
  - destruct (0 <? y)%float; [reflexivity|].
    rewrite (@get_sign_ltb _ Hy). reflexivity.
Qed.

(** In binary64 arithmetic no point is within a negative radius of
    another, whatever the coordinates, as soon as [Math.atan2] returns no
    negative number for an ordinate whose sign bit is clear, nor at
    [(-0, 1)]. The distance itself is then a NaN or not below zero. *)
Lemma negative_radius_never_within (sin cos : float -> float)
    (atan2 : float -> float -> float)
    (point center : LocationCoordinates float) (radiusKm : float) :
  (forall y x, get_sign y = false -> (atan2 y x <? 0)%float = false) ->
  (atan2 (-0)%float 1%float <? 0)%float = false ->
  (radiusKm <? 0)%float = true ->
  (@calculateDistance float (ieee sin cos atan2) point center <? 0)%float = false
  /\ @isWithinRadius float (ieee sin cos atan2) point center radiusKm = false.
Proof.
  intros H1 H2 Hr.
  assert (Hd : (@calculateDistance float (ieee sin cos atan2) point center <? 0)%float
               = false).
  { unfold calculateDistance. cbn -[toRad].
    set (h := (_ + _)%float).
    apply div_pos_sign; [reflexivity|].
    apply round_sign.
    apply mul_pos_sign_r; [reflexivity|].
    apply mul_pos_sign; [reflexivity|].
    apply mul_pos_sign; [reflexivity|].
    destruct (Prim2SF h) as [[]|s| |s m e] eqn:E;
      try (apply H1; apply sqrt_sign; rewrite E; discriminate).
    assert (Eh : h = (-0)%float) by (apply Prim2SF_inj; rewrite E; reflexivity).
    rewrite Eh. exact H2. }
  split; [exact Hd|].
  unfold isWithinRadius. cbn -[calculateDistance].
  apply negative_radius; assumption.
Qed.

(** *** Swapping the two points *)









(** The hypothesis on the product says something: a product of three
    binary64 values can depend on the order of its factors. *)
Example product_order_matters :
  (@times float ieee_series (@times float ieee_series 0.1 0.2) 0.3
   =? @times float ieee_series (@times float ieee_series 0.1 0.3) 0.2)%float
  = false.
Proof. vm_compute. reflexivity. Qed.



Lemma negative_radius_never_within_witness :
  @isWithinRadius float ieee_series
    {| latitude := 24.7136%float; longitude := 46.6753%float |}
    {| latitude := 24.7245%float; longitude := 46.6881%float |}
    (-1)%float
  = false.
Proof.
  exact (proj2 (@negative_radius_never_within sin_series cos_series atan2_series
                  {| latitude := 24.7136%float; longitude := 46.6753%float |}
                  {| latitude := 24.7245%float; longitude := 46.6881%float |}
                  (-1)%float atan2_series_sign eq_refl eq_refl)).
Defined.

(** ** Claims on distances *)

(** C3. [isWithinRadius a b d] is the comparison
    [calculateDistance a b <= d], whatever the arithmetic; a distance
    equal to the radius counts as within, for binary64 values (equal in
    the sense of [==], which no NaN is) and for real numbers. *)
Theorem isWithinRadius_iff :
  (forall (num : Type) (N : Number num) (a b : LocationCoordinates num) (d : num),
      isWithinRadius a b d = true <-> (calculateDistance a b <=? d)%js = true)
  /\ (forall (sin cos : float -> float) (atan2 : float -> float -> float)
             (a b : LocationCoordinates float) (d : float),
         (@calculateDistance float (ieee sin cos atan2) a b =? d)%float = true ->
         @isWithinRadius float (ieee sin cos atan2) a b d = true)
  /\ (forall a b : LocationCoordinates R,
         @isWithinRadius R reals a b (@calculateDistance R reals a b) = true).
Proof.
  split; [|split].
  - intros num N a b d. unfold isWithinRadius. reflexivity.
  - intros sin cos atan2 a b d H. unfold isWithinRadius.
    cbn -[calculateDistance]. apply eqb_leb. exact H.
  - intros a b. unfold isWithinRadius. cbn -[calculateDistance].
    destruct (Rle_dec _ _) as [_|Hn]; [reflexivity|].
    exfalso. apply Hn. apply Rle_refl.
Qed.

(** In exact arithmetic the formula of [calculateDistance] is the
    haversine distance on a sphere of radius 6371 km, taken times 10,
    rounded to the nearest integer and divided by 10: it is within
    0.05 km of that distance. *)
Theorem calculateDistance_haversine (p q : LocationCoordinates R) :
  @calculateDistance R reals p q = (round_R (haversine_km p q * 10) / 10)%R
  /\ (Rabs (@calculateDistance R reals p q - haversine_km p q) <= / 20)%R.
Proof.
  assert (E : @calculateDistance R reals p q
              = (round_R (haversine_km p q * 10) / 10)%R).
  { rewrite calculateDistance_reals, atan2_R_sqrt by apply haversine_a_range.
    unfold haversine_km. f_equal. f_equal. ring. }
  split; [exact E|]. rewrite E.
  pose proof (round_R_close (haversine_km p q * 10)%R) as H.
  apply Rabs_le. lra.
Qed.

(** C7. In binary64 arithmetic the distance from a point with finite
    coordinates to itself is 0, for every [Math.sin], [Math.cos] and
    [Math.atan2] with [sin(0) = 0], [atan2(0, 1) = 0] (both fixed by
    ECMAScript) and a finite cosine at the latitude. *)
Theorem calculateDistance_same_point (sin cos : float -> float)
    (atan2 : float -> float -> float) (p : LocationCoordinates float) :
  is_finite (latitude p) = true ->
  is_finite (longitude p) = true ->
  sin 0%float = 0%float ->
  atan2 0%float 1%float = 0%float ->
  is_finite (cos (@toRad float (ieee sin cos atan2) (latitude p))) = true ->
  @calculateDistance float (ieee sin cos atan2) p p = 0%float.
Proof.
  intros Hlat Hlon Hsin Hatan Hcos.
  unfold calculateDistance. cbn -[toRad].
  rewrite (@sub_diag _ Hlat), (@sub_diag _ Hlon).
  change (@toRad float (ieee sin cos atan2) 0%float) with 0%float.
  change (0 / 2)%float with 0%float.
  rewrite Hsin.
  change (0 * 0)%float with 0%float.
  rewrite (@zero_times_twice _ Hcos).
  change (0 + 0)%float with 0%float.
  change (PrimFloat.sqrt 0)%float with 0%float.
  change (PrimFloat.sqrt (1 - 0))%float with 1%float.
  rewrite Hatan. reflexivity.
Qed.

Lemma calculateDistance_same_point_witness :
  @calculateDistance float ieee_series
    {| latitude := 24.7136%float; longitude := 46.6753%float |}
    {| latitude := 24.7136%float; longitude := 46.6753%float |}
  = 0%float.
Proof.
  exact (@calculateDistance_same_point sin_series cos_series atan2_series
           {| latitude := 24.7136%float; longitude := 46.6753%float |}
           eq_refl eq_refl eq_refl eq_refl eq_refl).
Defined.

(** In exact arithmetic the formula gives the same distance from [p] to
    [q] as from [q] to [p]. *)
Theorem calculateDistance_symmetric (p q : LocationCoordinates R) :
  @calculateDistance R reals p q = @calculateDistance R reals q p.
Proof.
  rewrite !calculateDistance_reals, (haversine_a_sym p q). reflexivity.
Qed.

(** In exact arithmetic the formula is never negative, at any latitude,
    and so no point is within a negative radius of another. *)
Theorem calculateDistance_nonnegative (p q : LocationCoordinates R) :
  (0 <= @calculateDistance R reals p q)%R
  /\ (forall radiusKm : R,
         (radiusKm < 0)%R -> @isWithinRadius R reals p q radiusKm = false).
Proof.
  pose proof (calculateDistance_reals_nonneg p q) as H.
  split; [exact H|].
  intros r Hr. unfold isWithinRadius. cbn -[calculateDistance].
  destruct (Rle_dec _ r) as [Hle|_]; [lra|reflexivity].
Qed.

(** * Further properties *)

(** ** The location service and the device *)

(** What [getCurrentLocation] returns, by what the device answers. *)
Lemma getCurrentLocation_outcome (Location : ExpoLocation) :
  (snd (getCurrentLocation Location) = None
   <-> (getForegroundPermissionsAsync Location <> Resolved granted
        /\ requestForegroundPermissionsAsync Location <> Resolved granted)
       \/ exists reason, getCurrentPositionAsync Location = Rejected reason)
  /\ (forall data, snd (getCurrentLocation Location) = Some data ->
        exists location,
          getCurrentPositionAsync Location = Resolved location
          /\ coordinates data = position_of location).
Proof.
  destruct Location as [request check position reverse geocode watch].
  unfold getCurrentLocation, checkLocationPermission, requestLocationPermission, position_of.
  cbn.
  split.
  - destruct check as [[]|?], request as [[]|?]; cbn;
      destruct position as [location|?]; cbn;
      try destruct (reverse _) as [[|first rest]|?]; cbn;
      (split; [intros H; try discriminate H; try (left; split; discriminate);
                         try (right; eexists; reflexivity)
              |intros [[H1 H2]|[r H]]; try reflexivity; try congruence]).
  - intros data.
    destruct check as [[]|?], request as [[]|?]; cbn;
      destruct position as [location|?]; cbn;
      try destruct (reverse _) as [[|first rest]|?]; cbn;
      intros H; try discriminate H; injection H as <-; eexists; split; reflexivity.
Qed.

(** X4. [getCurrentLocation] asks the device for the position exactly
    when the permission is granted, either already or on request, and it
    requests the permission exactly when the check does not report it as
    granted. *)
Theorem position_needs_permission (Location : ExpoLocation) :
  (In (Called GetCurrentPosition) (fst (getCurrentLocation Location))
   <-> getForegroundPermissionsAsync Location = Resolved granted
       \/ requestForegroundPermissionsAsync Location = Resolved granted)
  /\ (In (Called RequestForegroundPermissions) (fst (getCurrentLocation Location))
      <-> getForegroundPermissionsAsync Location <> Resolved granted).
Proof.
  destruct Location as [request check position reverse geocode watch].
  unfold getCurrentLocation, checkLocationPermission, requestLocationPermission.
  cbn -[In].
  destruct check as [[]|?], request as [[]|?]; cbn -[In];
    destruct position as [location|?]; cbn -[In];
    try destruct (reverse _) as [[|first rest]|?]; cbn;
    intuition (try discriminate; try congruence).
Qed.

(** X5. [getCurrentLocation] returns [null] exactly when the permission
    is neither granted nor obtained, or when the device fails to give the
    position; a failure of the reverse geocoding never makes it [null].
    Any other result carries the coordinates the device reported. *)
Theorem getCurrentLocation_null_iff (Location : ExpoLocation) :
  (snd (getCurrentLocation Location) = None
   <-> (getForegroundPermissionsAsync Location <> Resolved granted
        /\ requestForegroundPermissionsAsync Location <> Resolved granted)
       \/ exists reason, getCurrentPositionAsync Location = Rejected reason)
  /\ (forall data, snd (getCurrentLocation Location) = Some data ->
        exists location,
          getCurrentPositionAsync Location = Resolved location
          /\ coordinates data = position_of location).
Proof.
  exact (@getCurrentLocation_outcome Location).
Qed.

Lemma or_undefined_truthy (x : option float) (v : float) :
  or_undefined x = Some v -> x = Some v /\ is_zero v = false /\ is_nan v = false.
Proof.
  destruct x as [u|]; cbn; [|discriminate].
  unfold falsy_number. destruct (is_zero u) eqn:Hz, (is_nan u) eqn:Hn; cbn; try discriminate.
  intros H. injection H as <-. auto.
Qed.

(** X6. An accuracy, altitude, heading or speed that [getCurrentLocation]
    returns is never zero and never a NaN: a reading of [0] (an altitude
    at sea level, a heading due north, a speed at rest) is returned as
    [undefined], like a missing one. *)
Theorem zero_readings_are_dropped (Location : ExpoLocation) (data : LocationData)
    (v : float) :
  snd (getCurrentLocation Location) = Some data ->
  accuracy data = Some v \/ altitude data = Some v
  \/ heading data = Some v \/ speed data = Some v ->
  is_zero v = false /\ is_nan v = false.
Proof.
  destruct Location as [request check position reverse geocode watch].
  unfold getCurrentLocation, checkLocationPermission, requestLocationPermission.
  cbn.
  destruct check as [[]|?], request as [[]|?]; cbn;
    destruct position as [location|?]; cbn;
    try destruct (reverse _) as [[|first rest]|?]; cbn;
    intros H; try discriminate H; injection H as <-; cbn;
    intros [H|[H|[H|H]]]; apply or_undefined_truthy in H; tauto.
Qed.

Lemma zero_readings_are_dropped_witness :
  exists data,
    snd (getCurrentLocation device_granted) = Some data
    /\ accuracy data = Some 5%float
    /\ altitude data = None
    /\ speed data = None
    /\ is_zero 5%float = false /\ is_nan 5%float = false.
Proof.
  eexists. split; [reflexivity|]. split; [reflexivity|].
  split; [reflexivity|]. split; [reflexivity|].
  exact (@zero_readings_are_dropped device_granted _ 5%float eq_refl (or_introl eq_refl)).
Defined.

Lemma truthy_iff (s : string) : truthy s = true <-> s <> "".
Proof.
  unfold truthy. destruct s; cbn; split; try congruence; try discriminate.
Qed.

Lemma join_nonempty (sep : string) (part : string) (parts : list string) :
  part <> "" -> join sep (part :: parts) <> "".
Proof.
  intros Hp. destruct part as [|c part]; [contradiction Hp; reflexivity|].
  destruct parts; cbn; discriminate.
Qed.

Lemma filter_Boolean_nil (parts : list (option string)) :
  filter_Boolean parts = [] <-> forall part, In part parts -> truthy_opt part = false.
Proof.
  induction parts as [|[v|] parts IH]; cbn.
  - split; [intros _ part []|reflexivity].
  - destruct (truthy v) eqn:Hv.
    + split; [discriminate|]. intros H. specialize (H (Some v) (or_introl eq_refl)).
      cbn in H. congruence.
    + rewrite IH. split.
      * intros H part [<-|Hin]; [exact Hv|apply H; exact Hin].
      * intros H part Hin. apply H. right. exact Hin.
  - rewrite IH. split.
    + intros H part [<-|Hin]; [reflexivity|apply H; exact Hin].
    + intros H part Hin. apply H. right. exact Hin.
Qed.

Lemma filter_Boolean_truthy (parts : list (option string)) (v : string) :
  In v (filter_Boolean parts) -> v <> "".
Proof.
  induction parts as [|[u|] parts IH]; cbn; [tauto| |exact IH].
  destruct (truthy u) eqn:Hu; [|exact IH].
  intros [<-|Hin]; [apply truthy_iff; exact Hu|apply IH; exact Hin].
Qed.

Lemma join_concat (sep : string) (parts : list string) :
  join sep parts = String.concat sep parts.
Proof.
  induction parts as [|part parts IH]; [reflexivity|].
  destruct parts as [|next parts]; [reflexivity|].
  change (join sep (part :: next :: parts)) with (part ++ sep ++ join sep (next :: parts)).
  rewrite IH. reflexivity.
Qed.

Lemma filter_Boolean_filter (parts : list (option string)) :
  filter_Boolean parts = filter truthy (map unwrap parts).
Proof.
  induction parts as [|[v|] parts IH]; cbn; [reflexivity| |exact IH].
  rewrite IH. reflexivity.
Qed.

(** X7. The address [getCurrentLocation] returns is [undefined] when the
    reverse geocoding fails or finds nothing; otherwise it is built from
    the first hit alone: its street, city and region, those of them that
    are neither [null] nor empty, in that order and separated by [", "].
    It is the empty string exactly when that hit has neither street, city
    nor region. *)
Theorem address_of_first_hit (Location : ExpoLocation) (location : LocationObject)
    (data : LocationData) :
  getCurrentPositionAsync Location = Resolved location ->
  snd (getCurrentLocation Location) = Some data ->
  match reverseGeocodeAsync Location (position_of location) with
  | Resolved (first :: _) =>
      exists a, address data = Some a
                /\ a = String.concat ", "
                         (filter (fun part => negb (part =? ""))
                            (map unwrap [street first; city first; region first]))
                /\ (a = "" <-> truthy_opt (street first) = false
                               /\ truthy_opt (city first) = false
                               /\ truthy_opt (region first) = false)
  | _ => address data = None
  end.
Proof.
  destruct Location as [request check position reverse geocode watch].
  unfold getCurrentLocation, checkLocationPermission, requestLocationPermission, position_of.
  cbn. intros ->.
  assert (Hjoin : forall first : LocationGeocodedAddress,
             join ", " (filter_Boolean [street first; city first; region first]) = ""
             <-> truthy_opt (street first) = false
                 /\ truthy_opt (city first) = false
                 /\ truthy_opt (region first) = false).
  { intros first. split.
    - intros H.
      destruct (filter_Boolean [street first; city first; region first]) as [|v vs] eqn:E.
      + pose proof (proj1 (@filter_Boolean_nil _) E) as Hall.
        repeat split; apply Hall; cbn; auto.
      + exfalso. revert H. apply join_nonempty.
        apply (@filter_Boolean_truthy [street first; city first; region first]).
        rewrite E. left. reflexivity.
    - intros (H1 & H2 & H3).
      assert (E : filter_Boolean [street first; city first; region first] = []).
      { apply filter_Boolean_nil. intros part [<-|[<-|[<-|[]]]]; assumption. }
      rewrite E. reflexivity. }
  assert (Htext : forall first : LocationGeocodedAddress,
             join ", " (filter_Boolean [street first; city first; region first])
             = String.concat ", "
                 (filter (fun part => negb (part =? ""))
                    (map unwrap [street first; city first; region first]))).
  { intros first. rewrite join_concat, filter_Boolean_filter. reflexivity. }
  destruct check as [[]|?], request as [[]|?]; cbn;
    destruct (reverse _) as [[|first rest]|?]; cbn;
    intros H; try discriminate H; injection H as <-; cbn -[String.concat filter map];
    try reflexivity; eexists;
    (split; [reflexivity|split; [apply Htext|apply Hjoin]]).
Qed.

Lemma address_of_first_hit_witness :
  exists data,
    getCurrentPositionAsync device_granted = Resolved sample_reading
    /\ snd (getCurrentLocation device_granted) = Some data
    /\ address data = Some "الرياض"
    /\ exists a, address data = Some a
                 /\ a = String.concat ", "
                          (filter (fun part => negb (part =? ""))
                             (map unwrap [None; Some "الرياض"; Some ""]))
                 /\ (a = "" <-> truthy_opt None = false
                                /\ truthy_opt (Some "الرياض") = false
                                /\ truthy_opt (Some "") = false).
Proof.
  eexists. split; [reflexivity|]. split; [reflexivity|]. split; [reflexivity|].
  exact (@address_of_first_hit device_granted sample_reading _ eq_refl eq_refl).
Defined.

(** X8. [watchLocation] subscribes to position updates exactly when the
    permission is already granted, and never requests it; the variable
    [subscription] ends up holding a subscription exactly when the device
    grants one; and the caller's [onError], when given, is called with
    "Location permission not granted" without the permission and with the
    device's error when subscribing fails with an [Error], and is never
    called otherwise. *)
Theorem watch_needs_permission (Location : ExpoLocation) (onError : bool) :
  (In (Called WatchPosition) (fst (startWatching Location onError))
   <-> getForegroundPermissionsAsync Location = Resolved granted)
  /\ ~ In (Called RequestForegroundPermissions) (fst (startWatching Location onError))
  /\ (forall s, snd (startWatching Location onError) = Some s
                <-> getForegroundPermissionsAsync Location = Resolved granted
                    /\ watchPositionAsync Location = Resolved s)
  /\ (forall message,
        In (OnError message) (fst (startWatching Location onError))
        <-> onError = true
            /\ ((getForegroundPermissionsAsync Location <> Resolved granted
                 /\ message = "Location permission not granted")
                \/ (getForegroundPermissionsAsync Location = Resolved granted
                    /\ watchPositionAsync Location = Rejected (ErrorObject message)))).
Proof.
  destruct Location as [request check position reverse geocode watch].
  unfold startWatching, checkLocationPermission, watchFailed.
  destruct check as [[]|?]; try destruct watch as [s'|[m|]]; destruct onError; cbn;
    repeat split; intros;
    repeat (match goal with
            | H : _ \/ _ |- _ => destruct H
            | H : _ /\ _ |- _ => destruct H
            | H : False |- _ => destruct H
            | H : Rejected _ = Rejected _ |- _ => injection H as H
            | H : ErrorObject _ = ErrorObject _ |- _ => injection H as H
            | H : Resolved _ = Resolved _ |- _ => injection H as H
            | H : Some _ = Some _ |- _ => injection H as H
            | H : OnError _ = OnError _ |- _ => injection H as H
            | |- ~ _ => intro
            end; subst);
    try discriminate; try congruence; try tauto; auto 10;
    try (right; split; congruence); try (left; split; congruence).
Qed.

(** X9. The cleanup function that [watchLocation] returns removes the
    subscription when it runs after the subscription has been stored.
    Run before that, while [startWatching] is still waiting, it removes
    nothing: the subscription is then still obtained and stored, and never
    removed. *)
Theorem early_cleanup_leaves_subscription (Location : ExpoLocation) (onError : bool)
    (s : LocationSubscription) :
  getForegroundPermissionsAsync Location = Resolved granted ->
  watchPositionAsync Location = Resolved s ->
  (In (Called WatchPosition) (fst (cleanup_before_start Location onError))
   /\ snd (cleanup_before_start Location onError) = Some s
   /\ forall s', ~ In (Removed s') (fst (cleanup_before_start Location onError)))
  /\ In (Removed s) (fst (cleanup_after_start Location onError)).
Proof.
  destruct Location as [request check position reverse geocode watch].
  cbn. intros -> ->.
  unfold cleanup_before_start, cleanup_after_start, startWatching, checkLocationPermission.
  cbn. repeat split; auto 10.
  intros s' H. cbn in H. intuition discriminate.
Qed.

Lemma early_cleanup_leaves_subscription_witness :
  (In (Called WatchPosition) (fst (cleanup_before_start device_granted true))
   /\ snd (cleanup_before_start device_granted true) = Some 1%nat
   /\ forall s', ~ In (Removed s') (fst (cleanup_before_start device_granted true)))
  /\ In (Removed 1%nat) (fst (cleanup_after_start device_granted true)).
Proof.
  exact (@early_cleanup_leaves_subscription device_granted true 1%nat eq_refl eq_refl).
Defined.

(** ** The screens and the device *)

(** X10. When the permission is refused or the device gives no position,
    the search screen ends loading with no user location, and the list it
    shows is then the same for every distance button: the radius is not
    applied at all. *)
Theorem no_location_no_radius (sin cos : float -> float)
    (atan2 : float -> float -> float)
    (Location : ExpoLocation) (workers : list (WorkerProfile float))
    (query : string) (chosen : option string) (d d' : float) :
  (getForegroundPermissionsAsync Location <> Resolved granted
   /\ requestForegroundPermissionsAsync Location <> Resolved granted)
  \/ (exists reason, getCurrentPositionAsync Location = Rejected reason) ->
  snd (search_loadLocation Location) = (None, false)
  /\ @filterWorkers float (ieee sin cos atan2) workers query chosen d
       (fst (snd (search_loadLocation Location)))
     = @filterWorkers float (ieee sin cos atan2) workers query chosen d'
         (fst (snd (search_loadLocation Location))).
Proof.
  intros H.
  assert (E : snd (getCurrentLocation Location) = None)
    by (apply getCurrentLocation_outcome; exact H).
  assert (E' : snd (search_loadLocation Location) = (None, false)).
  { unfold search_loadLocation, bind.
    destruct (getCurrentLocation Location) as [t [l|]]; cbn in *;
      [discriminate E|reflexivity]. }
  rewrite E'. split; reflexivity.
Qed.

Lemma no_location_no_radius_witness :
  snd (search_loadLocation device_denied) = (None, false)
  /\ @filterWorkers float ieee_series MOCK_WORKERS "" None 10%float
       (fst (snd (search_loadLocation device_denied)))
     = @filterWorkers float ieee_series MOCK_WORKERS "" None 100%float
         (fst (snd (search_loadLocation device_denied))).
Proof.
  assert (H : (getForegroundPermissionsAsync device_denied <> Resolved granted
               /\ requestForegroundPermissionsAsync device_denied <> Resolved granted)
              \/ (exists reason, getCurrentPositionAsync device_denied = Rejected reason))
    by (left; split; discriminate).
  exact (@no_location_no_radius sin_series cos_series atan2_series device_denied
           MOCK_WORKERS "" None 10%float 100%float H).
Defined.

(** X11. The map screen always ends loading with a centre: the position
    the device reported when there is one, and Riyadh (24.7136, 46.6753)
    when the permission is refused or the device gives no position. *)
Theorem map_always_has_a_location (Location : ExpoLocation) :
  exists centre,
    snd (map_loadLocation Location) = (Some centre, false)
    /\ ((getForegroundPermissionsAsync Location <> Resolved granted
         /\ requestForegroundPermissionsAsync Location <> Resolved granted)
        \/ (exists reason, getCurrentPositionAsync Location = Rejected reason) ->
        centre = Riyadh)
    /\ (forall location,
          (getForegroundPermissionsAsync Location = Resolved granted
           \/ requestForegroundPermissionsAsync Location = Resolved granted) ->
          getCurrentPositionAsync Location = Resolved location ->
          centre = position_of location).
Proof.
  pose proof (@getCurrentLocation_outcome Location) as [Hnull Hsome].
  unfold map_loadLocation, bind.
  destruct (getCurrentLocation Location) as [t [l|]] eqn:E; cbn in *.
  - exists {| latitude := latitude (coordinates l); longitude := longitude (coordinates l) |}.
    split; [reflexivity|]. split.
    + intros H. apply Hnull in H. discriminate H.
    + intros location _ Hpos. destruct (Hsome l eq_refl) as [location' [Hpos' Hc]].
      rewrite Hpos in Hpos'. injection Hpos' as <-. rewrite Hc. reflexivity.
  - exists Riyadh. split; [reflexivity|]. split; [reflexivity|].
    intros location Hg Hpos. exfalso.
    destruct (proj1 Hnull eq_refl) as [[H1 H2]|[r Hr]]; [tauto|congruence].
Qed.

(** ** The worker list *)

Lemma prefix_split (p s : string) :
  prefix p s = true <-> exists post, s = p ++ post.
Proof.
  revert s. induction p as [|c p IH]; intros s.
  - split; [intros _; exists s; reflexivity|]. intros _. destruct s; reflexivity.
  - destruct s as [|d s].
    + cbn. split; [discriminate|]. intros [post H]. discriminate H.
    + cbn [prefix]. destruct (ascii_dec c d) as [->|Hne].
      * rewrite IH. split.
        -- intros [post ->]. exists post. reflexivity.
        -- intros [post H]. cbn in H. injection H as ->. exists post. reflexivity.
      * split; [discriminate|]. intros [post H]. cbn in H. injection H as <- _.
        contradiction Hne. reflexivity.
Qed.

(** [s.includes(sub)]: [sub] occurs in [s]. *)
Lemma includes_substring (s sub : string) :
  includes s sub = true <-> exists pre post, s = pre ++ sub ++ post.
Proof.
  induction s as [|c s IH].
  - cbn [includes]. rewrite orb_false_r, prefix_split. split.
    + intros [post H]. exists "", post. exact H.
    + intros [pre [post H]]. destruct pre; [|discriminate H]. exists post. exact H.
  - cbn [includes]. rewrite orb_true_iff, prefix_split, IH. split.
    + intros [[post H]|[pre [post H]]].
      * exists "", post. exact H.
      * exists (String c pre), post. rewrite H. reflexivity.
    + intros [pre [post H]]. destruct pre as [|d pre].
      * left. exists post. exact H.
      * right. cbn in H. injection H as _ H. exists pre, post. exact H.
Qed.

(** Who is listed, worker by worker. *)
Lemma filterWorkers_In {num : Type} {N : Number num}
    (workers : list (WorkerProfile num)) (query : string)
    (chosen : option string) (radius : num)
    (origin : option (LocationCoordinates num)) (w : WorkerProfile num) :
  In w (filterWorkers workers query chosen radius origin)
  <-> In w workers
      /\ (forall p, chosen = Some p -> p <> "" -> profession w = p)
      /\ (query <> "" ->
          exists text pre post,
            (text = name w \/ text = profession w \/ In text (tags w))
            /\ text = pre ++ query ++ post)
      /\ (forall o, origin = Some o ->
            le (calculateDistance o (location w)) radius = true).
Proof.
  assert (Hq : matchesQuery query w = true
               <-> exists text pre post,
                     (text = name w \/ text = profession w \/ In text (tags w))
                     /\ text = pre ++ query ++ post).
  { unfold matchesQuery. rewrite !orb_true_iff, existsb_exists, !includes_substring.
    split.
    - intros [[[pre [post H]]|[pre [post H]]]|[tag [Hin Hs]]].
      + exists (name w), pre, post. auto.
      + exists (profession w), pre, post. auto.
      + apply includes_substring in Hs. destruct Hs as [pre [post Hs]].
        exists tag, pre, post. auto.
    - intros [text [pre [post [[->|[->|Hin]] H]]]].
      + left. left. exists pre, post. exact H.
      + left. right. exists pre, post. exact H.
      + right. exists text. split; [exact Hin|]. apply includes_substring.
        exists pre, post. exact H. }
  unfold filterWorkers.
  destruct origin as [o|]; [rewrite filter_In; unfold withinMaxDistance|];
    (destruct (truthy query) eqn:Tq; [rewrite filter_In|]);
    (destruct chosen as [p|]; [destruct (truthy p) eqn:Tp; [rewrite filter_In|]|]);
    unfold matchesProfession; rewrite ?String.eqb_eq, ?Hq;
    try (apply truthy_iff in Tq);
    try (assert (query = "") by (destruct query; [reflexivity|discriminate Tq]));
    try (apply truthy_iff in Tp);
    try (assert (p = "") by (destruct p; [reflexivity|discriminate Tp]));
    subst;
    (split; [intros H; repeat split; try tauto; intros;
             repeat match goal with
                    | H : Some _ = Some _ |- _ => injection H as H; subst
                    end; try tauto; try discriminate; try congruence
            |intros [H1 [H2 [H3 H4]]]; repeat split; auto; try (apply H3; congruence)]).
Qed.

(** X12. A worker is listed by the search screen exactly when it is in
    the list of workers and: its profession is the selected one, if one
    is selected; the query, if not empty, occurs (as it is typed, case
    and all) in its name, its profession or one of its tags; and its
    rounded distance from the user is at most the chosen maximum, if the
    user's location is known. *)
Theorem listed_iff {num : Type} {N : Number num}
    (workers : list (WorkerProfile num)) (query : string)
    (chosen : option string) (radius : num)
    (origin : option (LocationCoordinates num)) (w : WorkerProfile num) :
  In w (filterWorkers workers query chosen radius origin)
  <-> In w workers
      /\ (forall p, chosen = Some p -> p <> "" -> profession w = p)
      /\ (query <> "" ->
          exists text pre post,
            (text = name w \/ text = profession w \/ In text (tags w))
            /\ text = pre ++ query ++ post)
      /\ (forall o, origin = Some o ->
            le (calculateDistance o (location w)) radius = true).
Proof.
  exact (@filterWorkers_In num N workers query chosen radius origin w).
Qed.

(** X13. Each worker is kept or dropped on its own: filtering two lists
    put end to end gives the two filtered lists put end to end, and
    filtering a filtered list again with the same criteria changes
    nothing. *)
Theorem filterWorkers_pointwise {num : Type} {N : Number num}
    (workers more : list (WorkerProfile num)) (query : string)
    (chosen : option string) (radius : num)
    (origin : option (LocationCoordinates num)) :
  filterWorkers (workers ++ more)%list query chosen radius origin
  = (filterWorkers workers query chosen radius origin
     ++ filterWorkers more query chosen radius origin)%list
  /\ filterWorkers (filterWorkers workers query chosen radius origin)
       query chosen radius origin
     = filterWorkers workers query chosen radius origin.
Proof.
  pose (c := {| searchQuery := query; selectedProfession := chosen;
                maxDistance := radius; userLocation := origin |}).
  change (filterWorkers (workers ++ more)%list (searchQuery c) (selectedProfession c)
            (maxDistance c) (userLocation c)
          = (filterWorkers workers (searchQuery c) (selectedProfession c)
               (maxDistance c) (userLocation c)
             ++ filterWorkers more (searchQuery c) (selectedProfession c)
                  (maxDistance c) (userLocation c))%list
          /\ filterWorkers (filterWorkers workers (searchQuery c) (selectedProfession c)
                              (maxDistance c) (userLocation c))
               (searchQuery c) (selectedProfession c) (maxDistance c) (userLocation c)
             = filterWorkers workers (searchQuery c) (selectedProfession c)
                 (maxDistance c) (userLocation c)).
  rewrite !filterWorkers_steps, !applySteps_filter. split.
  - apply filter_app.
  - rewrite filter_twice. apply filter_ext. intros w.
    destruct (forallb _ _); reflexivity.
Qed.

(** [<=] on binary64 values is transitive. *)
Lemma SFleb_trans (x y z : spec_float) :
  SFleb x y = true -> SFleb y z = true -> SFleb x z = true.
Proof.
  unfold SFleb.
  destruct x as [sx|sx| |sx mx ex], y as [sy|sy| |sy my ey], z as [sz|sz| |sz mz ez];
    cbn; try discriminate; try reflexivity;
    try (destruct sx; discriminate); try (destruct sy; discriminate);
    try (destruct sx, sy; cbn; (discriminate || reflexivity));
    try (destruct sy, sz; cbn; (discriminate || reflexivity));
    try (destruct sx, sz; cbn; (discriminate || reflexivity));
    try (destruct sx, sy, sz; cbn; (discriminate || reflexivity)).
  destruct sx, sy, sz; cbn; try discriminate; try reflexivity;
    destruct (Z.compare_spec ex ey), (Z.compare_spec ey ez), (Z.compare_spec ex ez);
    try lia; try discriminate; try reflexivity; subst;
    rewrite <- ?Pos.compare_antisym;
    repeat match goal with
           | |- context [Pos.compare_cont Eq ?a ?b] =>
               change (Pos.compare_cont Eq a b) with (Pos.compare a b)
           | |- context [(?a ?= ?b)%positive] =>
               destruct (Pos.compare_spec a b); subst
           end;
    cbn; intros; try discriminate; try reflexivity; try lia.
Qed.

Lemma float_leb_trans (x y z : float) :
  (x <=? y)%float = true -> (y <=? z)%float = true -> (x <=? z)%float = true.
Proof.
  rewrite !leb_spec. apply SFleb_trans.
Qed.

Lemma subseq_filter_weaker {A : Type} (f g : A -> bool) (l : list A) :
  (forall x, f x = true -> g x = true) ->
  subseq (filter f l) (filter g l).
Proof.
  intros H. induction l as [|x l IH]; cbn.
  - constructor.
  - destruct (f x) eqn:F.
    + rewrite (H x F). apply subseq_keep. exact IH.
    + destruct (g x); [apply subseq_skip|]; exact IH.
Qed.

(** X14. In binary64 arithmetic, whatever [Math.sin], [Math.cos] and
    [Math.atan2] return: raising the maximum distance never removes a
    worker from the list. The list for the smaller distance is the list
    for the larger one with some workers removed. *)
Theorem wider_radius_keeps_workers (sin cos : float -> float)
    (atan2 : float -> float -> float)
    (workers : list (WorkerProfile float)) (query : string)
    (chosen : option string) (d d' : float)
    (origin : option (LocationCoordinates float)) :
  (d <=? d')%float = true ->
  subseq (@filterWorkers float (ieee sin cos atan2) workers query chosen d origin)
         (@filterWorkers float (ieee sin cos atan2) workers query chosen d' origin).
Proof.
  intros Hd.
  pose (c := {| searchQuery := query; selectedProfession := chosen;
                maxDistance := d; userLocation := origin |}).
  pose (c' := {| searchQuery := query; selectedProfession := chosen;
                 maxDistance := d'; userLocation := origin |}).
  change (subseq (@filterWorkers float (ieee sin cos atan2) workers (searchQuery c)
                    (selectedProfession c) (maxDistance c) (userLocation c))
                 (@filterWorkers float (ieee sin cos atan2) workers (searchQuery c')
                    (selectedProfession c') (maxDistance c') (userLocation c'))).
  rewrite !filterWorkers_steps, !applySteps_filter.
  apply subseq_filter_weaker. intros w. cbn.
  rewrite !andb_true_r, !andb_true_iff. intros [Hp [Hq Ho]].
  repeat split; try assumption.
  destruct origin as [o|]; [|reflexivity].
  unfold withinMaxDistance in *. cbn [le ieee] in *.
  eapply float_leb_trans; eassumption.
Qed.

Lemma wider_radius_keeps_workers_witness :
  (10 <=? 25)%float = true
  /\ subseq (@filterWorkers float ieee_series MOCK_WORKERS "" None 10%float (Some Riyadh))
            (@filterWorkers float ieee_series MOCK_WORKERS "" None 25%float (Some Riyadh)).
Proof.
  split; [reflexivity|].
  exact (@wider_radius_keeps_workers sin_series cos_series atan2_series MOCK_WORKERS
           "" None 10%float 25%float (Some Riyadh) eq_refl).
Defined.

Lemma PROFESSIONS_truthy (item : string) : In item PROFESSIONS -> truthy item = true.
Proof.
  intros H. cbn in H. repeat destruct H as [<-|H]; try reflexivity. contradiction.
Qed.

(** X15. Pressing one of the profession tags of the search screen: when
    the tag is the selected one the profession filter is switched off;
    otherwise the list becomes the workers of that profession among
    those the other criteria keep. *)
Theorem profession_tag_toggles {num : Type} {N : Number num}
    (workers : list (WorkerProfile num)) (query : string) (radius : num)
    (origin : option (LocationCoordinates num))
    (selected : option string) (item : string) :
  In item PROFESSIONS ->
  (selected = Some item ->
   filterWorkers workers query (pressProfession selected item) radius origin
   = filterWorkers workers query None radius origin)
  /\ (selected <> Some item ->
      filterWorkers workers query (pressProfession selected item) radius origin
      = filter (fun w => (profession w =? item)%string)
          (filterWorkers workers query None radius origin)).
Proof.
  intros Hitem. split.
  - intros ->. unfold pressProfession. rewrite String.eqb_refl. reflexivity.
  - intros Hsel.
    assert (E : pressProfession selected item = Some item).
    { unfold pressProfession. destruct selected as [p|]; [|reflexivity].
      destruct (String.eqb_spec p item) as [->|_]; [contradiction Hsel|]; reflexivity. }
    rewrite E.
    pose (c := {| searchQuery := query; selectedProfession := Some item;
                  maxDistance := radius; userLocation := origin |}).
    pose (c' := {| searchQuery := query; selectedProfession := None;
                   maxDistance := radius; userLocation := origin |}).
    change (filterWorkers workers (searchQuery c) (selectedProfession c)
              (maxDistance c) (userLocation c)
            = filter (fun w => (profession w =? item)%string)
                (filterWorkers workers (searchQuery c') (selectedProfession c')
                   (maxDistance c') (userLocation c'))).
    rewrite !filterWorkers_steps, !applySteps_filter, filter_twice.
    apply filter_ext. intros w. cbn.
    rewrite (@PROFESSIONS_truthy item Hitem). unfold matchesProfession.
    destruct (profession w =? item)%string; cbn; rewrite ?andb_true_r, ?andb_false_r;
      reflexivity.
Qed.

Lemma profession_tag_toggles_witness :
  In "سباك" PROFESSIONS
  /\ (Some "سباك" = Some "سباك" ->
      @filterWorkers float ieee_series MOCK_WORKERS ""
        (pressProfession (Some "سباك") "سباك") 50%float None
      = @filterWorkers float ieee_series MOCK_WORKERS "" None 50%float None)
  /\ (Some "سباك" <> Some "سباك" ->
      @filterWorkers float ieee_series MOCK_WORKERS ""
        (pressProfession (Some "سباك") "سباك") 50%float None
      = filter (fun w => (profession w =? "سباك")%string)
          (@filterWorkers float ieee_series MOCK_WORKERS "" None 50%float None)).
Proof.
  assert (H : In "سباك" PROFESSIONS) by (right; left; reflexivity).
  split; [exact H|].
  exact (@profession_tag_toggles float ieee_series MOCK_WORKERS "" 50%float None
           (Some "سباك") "سباك" H).
Defined.

(** *** Coordinates that are not numbers *)

Lemma SFcompare_refl (x : spec_float) :
  x <> S754_nan -> SFcompare x x = Some Eq.
Proof.
  destruct x as [s|s| |s m e]; cbn; intros H; try congruence.
  - destruct s; reflexivity.
  - rewrite Z.compare_refl.
    change (Pos.compare_cont Eq m m) with (Pos.compare m m).
    rewrite Pos.compare_refl. destruct s; reflexivity.
Qed.

Lemma is_nan_spec (x : float) : is_nan x = true <-> Prim2SF x = S754_nan.
Proof.
  unfold is_nan. rewrite eqb_spec. unfold SFeqb.
  destruct (Prim2SF x) as [s|s| |s m e] eqn:E.
  1,2,4: rewrite SFcompare_refl by discriminate; cbn; split; discriminate.
  cbn. split; reflexivity.
Qed.

Lemma sub_nan (x y : float) :
  is_nan x = true \/ is_nan y = true -> is_nan (x - y) = true.
Proof.
  rewrite !is_nan_spec, sub_spec. unfold SF64sub.
  intros [->| ->]; [reflexivity|].
  destruct (Prim2SF x) as [[]|[]| |[] m e]; reflexivity.
Qed.

Lemma add_nan (x y : float) :
  is_nan x = true \/ is_nan y = true -> is_nan (x + y) = true.
Proof.
  rewrite !is_nan_spec, add_spec. unfold SF64add.
  intros [->| ->]; [reflexivity|].
  destruct (Prim2SF x) as [[]|[]| |[] m e]; reflexivity.
Qed.

Lemma mul_nan (x y : float) :
  is_nan x = true \/ is_nan y = true -> is_nan (x * y) = true.
Proof.
  rewrite !is_nan_spec, mul_spec. unfold SF64mul.
  intros [->| ->]; [reflexivity|].
  destruct (Prim2SF x) as [[]|[]| |[] m e]; reflexivity.
Qed.

Lemma div_nan (x y : float) :
  is_nan x = true \/ is_nan y = true -> is_nan (x / y) = true.
Proof.
  rewrite !is_nan_spec, div_spec. unfold SF64div.
  intros [->| ->]; [reflexivity|].
  destruct (Prim2SF x) as [[]|[]| |[] m e]; reflexivity.
Qed.

Lemma sqrt_nan (x : float) : is_nan x = true -> is_nan (PrimFloat.sqrt x) = true.
Proof.
  rewrite !is_nan_spec, sqrt_spec. intros ->. reflexivity.
Qed.

Lemma round_nan (x : float) : is_nan x = true -> is_nan (Math_round_float x) = true.
Proof.
  intros H. unfold Math_round_float.
  rewrite (proj1 (is_nan_spec x) H). exact H.
Qed.

Lemma leb_nan (x y : float) : is_nan x = true -> (x <=? y)%float = false.
Proof.
  rewrite is_nan_spec, leb_spec. intros ->. reflexivity.
Qed.

Section NotANumber.
Variables (sin cos : float -> float) (atan2 : float -> float -> float).
Hypothesis sin_nan : forall x, is_nan x = true -> is_nan (sin x) = true.
Hypothesis atan2_nan : forall y x, is_nan y = true -> is_nan x = true ->
  is_nan (atan2 y x) = true.

Lemma calculateDistance_nan (p q : LocationCoordinates float) :
  is_nan (latitude p) = true \/ is_nan (longitude p) = true
  \/ is_nan (latitude q) = true \/ is_nan (longitude q) = true ->
  is_nan (@calculateDistance float (ieee sin cos atan2) p q) = true.
Proof.
  intros H. unfold calculateDistance. cbn [ieee lit plus minus times divide Math_sin
    Math_cos Math_sqrt Math_atan2 Math_round Math_PI].
  apply div_nan. left. apply round_nan. apply mul_nan. left. apply mul_nan. right.
  apply mul_nan. right.
  assert (Ha : forall a b c d, is_nan a = true \/ is_nan b = true ->
            is_nan (sin a * sin a + sin b * sin b * c * d)%float = true).
  { intros a b c d [Ha|Hb]; apply add_nan; [left|right].
    - apply mul_nan. left. apply sin_nan. exact Ha.
    - apply mul_nan. left. apply mul_nan. left. apply mul_nan. left.
      apply sin_nan. exact Hb. }
  apply atan2_nan.
  - apply sqrt_nan. apply Ha. unfold toRad. cbn [ieee lit times divide Math_PI].
    destruct H as [H|[H|[H|H]]]; [left|right|left|right];
      apply div_nan; left; apply mul_nan; left; apply sub_nan; auto.
  - apply sqrt_nan. apply sub_nan. right. apply Ha. unfold toRad.
    cbn [ieee lit times divide Math_PI].
    destruct H as [H|[H|[H|H]]]; [left|right|left|right];
      apply div_nan; left; apply mul_nan; left; apply sub_nan; auto.
Qed.
End NotANumber.

(** X16. In binary64 arithmetic, when one of the four coordinates is a
    NaN the distance is a NaN, the pair is within no radius, and the
    search screen lists no worker at such a position once the user's
    location is known (and no worker at all when it is the user's
    location that holds the NaN); [Math.sin] and [Math.atan2] are taken
    to return NaN on NaN, as ECMAScript requires. *)
Theorem nan_coordinate_is_never_near (sin cos : float -> float)
    (atan2 : float -> float -> float)
    (p q : LocationCoordinates float) :
  (forall x, is_nan x = true -> is_nan (sin x) = true) ->
  (forall y x, is_nan y = true -> is_nan x = true -> is_nan (atan2 y x) = true) ->
  is_nan (latitude p) = true \/ is_nan (longitude p) = true
  \/ is_nan (latitude q) = true \/ is_nan (longitude q) = true ->
  is_nan (@calculateDistance float (ieee sin cos atan2) p q) = true
  /\ (forall radiusKm, @isWithinRadius float (ieee sin cos atan2) p q radiusKm = false)
  /\ (forall workers query chosen maxDistance w,
        location w = q ->
        ~ In w (@filterWorkers float (ieee sin cos atan2) workers query chosen
                  maxDistance (Some p))).
Proof.
  intros Hsin Hatan2 H.
  pose proof (@calculateDistance_nan sin cos atan2 Hsin Hatan2 p q H) as Hd.
  split; [exact Hd|]. split.
  - intros r. unfold isWithinRadius. cbn [le ieee]. apply leb_nan. exact Hd.
  - intros workers query chosen d w Hw Hin.
    apply filterWorkers_In in Hin. destruct Hin as [_ [_ [_ Hin]]].
    specialize (Hin p eq_refl). rewrite Hw in Hin. cbn [le ieee] in Hin.
    rewrite (@leb_nan _ d Hd) in Hin. discriminate Hin.
Qed.

Lemma sin_series_nan (x : float) : is_nan x = true -> is_nan (sin_series x) = true.
Proof.
  intros H. unfold sin_series. cbv zeta. apply mul_nan. left. exact H.
Qed.

Lemma atan2_checked_nan (y x : float) :
  is_nan y = true -> is_nan x = true -> is_nan (atan2_checked y x) = true.
Proof.
  intros Hy _. unfold atan2_checked. rewrite Hy. reflexivity.
Qed.

Lemma nan_coordinate_is_never_near_witness :
  is_nan (@calculateDistance float (ieee sin_series cos_series atan2_checked)
            Riyadh {| latitude := nan; longitude := 46.7%float |}) = true
  /\ (forall radiusKm,
        @isWithinRadius float (ieee sin_series cos_series atan2_checked)
          Riyadh {| latitude := nan; longitude := 46.7%float |} radiusKm = false)
  /\ (forall workers query chosen maxDistance w,
        location w = {| latitude := nan; longitude := 46.7%float |} ->
        ~ In w (@filterWorkers float (ieee sin_series cos_series atan2_checked)
                  workers query chosen maxDistance (Some Riyadh))).
Proof.
  exact (@nan_coordinate_is_never_near sin_series cos_series atan2_checked
           Riyadh {| latitude := nan; longitude := 46.7%float |}
           sin_series_nan atan2_checked_nan
           (or_intror (or_intror (or_introl eq_refl)))).
Defined.

(** ** The redirect *)

Lemma match_param_truthy (name s g : string) :
  match_param name s = Some g -> g <> "".
Proof.
  induction s as [|c s IH]; cbn [match_param]; [discriminate|].
  destruct (truthy _) eqn:T; [|exact IH].
  intros H. injection H as <-. apply truthy_iff. exact T.
Qed.

Lemma tokens_nonempty (s : string) (ts : list Token) :
  tokens s = Some ts -> s <> "" -> ts <> [].
Proof.
  destruct s as [|c s]; [congruence|]. intros H _. cbn [tokens] in H.
  destruct (c =? "%")%char.
  - destruct s as [|c1 [|c2 s]]; try discriminate H.
    destruct (hex_octet c1 c2), (tokens s); try discriminate H.
    injection H as <-. discriminate.
  - destruct (tokens s); [|discriminate H]. injection H as <-. discriminate.
Qed.

Lemma decode_tokens_nonempty (ts : list Token) (r : string) :
  decode_tokens ts = Some r -> ts <> [] -> r <> "".
Proof.
  destruct ts as [|[c|b1] ts]; [congruence| |]; intros H _; cbn [decode_tokens] in H.
  - destruct (decode_tokens ts); [|discriminate H]. injection H as <-. discriminate.
  - repeat match type of H with
           | (if ?b then _ else _) = _ => destruct b
           | match ?x with _ => _ end = _ => destruct x
           end;
      try discriminate H; injection H as <-; discriminate.
Qed.

(** [decodeURIComponent] of a non-empty string is not empty. *)
Lemma decodeURIComponent_nonempty (s r : string) :
  decodeURIComponent s = Some r -> s <> "" -> r <> "".
Proof.
  unfold decodeURIComponent. destruct (tokens s) as [ts|] eqn:T; [|discriminate].
  intros H Hs. apply (@decode_tokens_nonempty ts r H).
  apply (@tokens_nonempty s ts T Hs).
Qed.

(** X17. [handleLogin] navigates to the callback screen only off the web,
    only on a [success] result with a non-empty URL, and never with an
    empty [code] or an empty [state], whether the URL was parsed or read
    by the regular expressions. *)
Theorem navigates_with_code_and_state (new_URL : string -> option URL)
    (os : PlatformOS) (loginUrl : string) (result : WebBrowserAuthSessionResult)
    (code state : string) :
  handleLogin new_URL os loginUrl result = Navigated code state ->
  code <> "" /\ state <> ""
  /\ os <> web /\ exists url, result = success url /\ url <> "".
Proof.
  intros H.
  assert (Hos : os <> web) by (intros ->; discriminate H).
  destruct result as [| | | |url]; try (destruct os; discriminate H).
  assert (Hurl : truthy url = true).
  { destruct (truthy url) eqn:T; [reflexivity|].
    unfold handleLogin in H. rewrite T in H. destruct os; discriminate H. }
  assert (Hgoal : code <> "" /\ state <> "").
  { destruct (new_URL (replace_exp_scheme url)) as [u|] eqn:P.
    - rewrite (@handleLogin_parsed new_URL os loginUrl url u Hos Hurl P) in H.
      cbv zeta in H.
      destruct (truthy_opt (URLSearchParams_get (searchParams u) "error"));
        [discriminate H|].
      destruct (URLSearchParams_get (searchParams u) "code") as [c|]; [|discriminate H].
      destruct (URLSearchParams_get (searchParams u) "state") as [s|];
        [|cbn in H; rewrite andb_false_r in H; discriminate H].
      cbn [truthy_opt unwrap] in H.
      destruct (truthy c) eqn:Tc; [|discriminate H].
      destruct (truthy s) eqn:Ts; [|discriminate H].
      injection H as <- <-. split; apply truthy_iff; assumption.
    - rewrite (@handleLogin_fallback new_URL os loginUrl url Hos Hurl P) in H.
      destruct (match_param "code" url) as [c|] eqn:Mc; [|discriminate H].
      destruct (match_param "state" url) as [s|] eqn:Ms; [|discriminate H].
      destruct (decodeURIComponent c) as [c'|] eqn:Dc; [|discriminate H].
      destruct (decodeURIComponent s) as [s'|] eqn:Ds; [|discriminate H].
      injection H as <- <-. split.
      + apply (@decodeURIComponent_nonempty c c' Dc).
        apply (@match_param_truthy _ _ _ Mc).
      + apply (@decodeURIComponent_nonempty s s' Ds).
        apply (@match_param_truthy _ _ _ Ms). }
  destruct Hgoal as [Hc Hs]. repeat split; try assumption.
  exists url. split; [reflexivity|]. apply truthy_iff. exact Hurl.
Qed.

Lemma navigates_with_code_and_state_witness :
  handleLogin URL_parse android "https://auth.example/login"
    (success "exp://host/oauth/callback?code=ABC&state=XYZ")
  = Navigated "ABC" "XYZ"
  /\ "ABC" <> "" /\ "XYZ" <> ""
  /\ android <> web
  /\ exists url,
       success "exp://host/oauth/callback?code=ABC&state=XYZ" = success url /\ url <> "".
Proof.
  split; [reflexivity|].
  exact (@navigates_with_code_and_state URL_parse android "https://auth.example/login"
           (success "exp://host/oauth/callback?code=ABC&state=XYZ") "ABC" "XYZ" eq_refl).
Defined.

(** X18. A redirect under [exps://] is handled as the same redirect
    under [exp://]: both are parsed as the same [http://] URL, and when
    the constructor throws the regular expressions read the same values
    from both. *)
Theorem exp_and_exps_agree (new_URL : string -> option URL)
    (os : PlatformOS) (loginUrl rest : string) :
  handleLogin new_URL os loginUrl (success ("exps://" ++ rest))
  = handleLogin new_URL os loginUrl (success ("exp://" ++ rest)).
Proof.
  destruct os; [reflexivity| | | |];
    unfold handleLogin;
    rewrite !constructor_call, replace_exp, replace_exps;
    change (truthy ("exps://" ++ rest)) with true;
    change (truthy ("exp://" ++ rest)) with true;
    cbv iota;
    (destruct (new_URL ("http://" ++ rest)); [reflexivity|]);
    reflexivity.
Qed.

(** * Distances on binary64 values: where the formula breaks *)

(** The arguments of a function of [Math], evaluated. *)
Ltac eval_arguments f :=
  repeat match goal with
         | |- context [f ?x] =>
             let v := eval vm_compute in x in progress change x with v
         end.

(** ** Near the antipode *)

(** From (8, 0) to (-8, 180), two points opposite to each other, the
    halves of the differences are -8 and 90 degrees. With the sines and
    cosines rounded to the nearest double, [a] comes out as [1 + 2^-52],
    [1 - a] is negative and its square root is a NaN. Nothing keeps [a]
    within [0, 1], where exact arithmetic keeps it ([haversine_a_range]). *)
Section NearAntipode.
Variables (sin cos : float -> float) (atan2 : float -> float -> float).
Hypothesis sin_lat : sin (-0x1.1df46a2529d39p-3)%float = (-0x1.1d06c968d9e19p-3)%float.
Hypothesis sin_lon : sin 0x1.921fb54442d18p+0%float = 1%float.
Hypothesis cos_lat : cos 0x1.1df46a2529d39p-3%float = 0x1.fb046a930947ap-1%float.
Hypothesis cos_lat' : cos (-0x1.1df46a2529d39p-3)%float = 0x1.fb046a930947ap-1%float.
Hypothesis atan2_nan : forall y x, is_nan x = true -> is_nan (atan2 y x) = true.

Lemma near_antipode_nan :
  is_nan (@calculateDistance float (ieee sin cos atan2)
            {| latitude := 8%float; longitude := 0%float |}
            {| latitude := (-8)%float; longitude := 180%float |}) = true.
Proof.
  unfold calculateDistance, toRad.
  cbn [ieee lit plus minus times divide Math_sin Math_cos Math_sqrt Math_atan2
       Math_round Math_PI latitude longitude].
  eval_arguments sin. eval_arguments cos.
  rewrite sin_lat, sin_lon, cos_lat, cos_lat'.
  apply div_nan. left. apply round_nan. apply mul_nan. left. apply mul_nan. right.
  apply mul_nan. right. apply atan2_nan. vm_compute. reflexivity.
Qed.
End NearAntipode.

Lemma atan2_rounded_nan (y x : float) :
  is_nan x = true -> is_nan (atan2_rounded y x) = true.
Proof.
  intros Hx. unfold atan2_rounded.
  assert (E : forall k, (x =? k)%float = false).
  { intros k. rewrite eqb_spec. apply is_nan_spec in Hx. rewrite Hx. reflexivity. }
  rewrite !E, !andb_false_r. unfold atan2_checked. rewrite Hx, orb_true_r. reflexivity.
Qed.

(** C4, at an input that breaks it. From (8, 0) to (-8, 180), finite
    coordinates in degrees, [calculateDistance] returns a NaN, not the
    haversine distance (20015.1 km): for every [Math.sin] and [Math.cos]
    that return the correctly rounded values at the four arguments
    reached, and every [Math.atan2] that returns NaN on a NaN, as
    ECMAScript requires. *)
Theorem calculateDistance_nan_near_antipode (sin cos : float -> float)
    (atan2 : float -> float -> float) :
  sin (-0x1.1df46a2529d39p-3)%float = (-0x1.1d06c968d9e19p-3)%float ->
  sin 0x1.921fb54442d18p+0%float = 1%float ->
  cos 0x1.1df46a2529d39p-3%float = 0x1.fb046a930947ap-1%float ->
  cos (-0x1.1df46a2529d39p-3)%float = 0x1.fb046a930947ap-1%float ->
  (forall y x, is_nan x = true -> is_nan (atan2 y x) = true) ->
  is_finite 8%float = true /\ is_finite 0%float = true
  /\ is_finite (-8)%float = true /\ is_finite 180%float = true
  /\ is_nan (@calculateDistance float (ieee sin cos atan2)
               {| latitude := 8%float; longitude := 0%float |}
               {| latitude := (-8)%float; longitude := 180%float |}) = true.
Proof.
  intros H1 H2 H3 H4 H5. repeat split; try reflexivity.
  exact (@near_antipode_nan sin cos atan2 H1 H2 H3 H4 H5).
Qed.

Lemma calculateDistance_nan_near_antipode_witness :
  is_finite 8%float = true /\ is_finite 0%float = true
  /\ is_finite (-8)%float = true /\ is_finite 180%float = true
  /\ is_nan (@calculateDistance float ieee_rounded
               {| latitude := 8%float; longitude := 0%float |}
               {| latitude := (-8)%float; longitude := 180%float |}) = true.
Proof.
  exact (@calculateDistance_nan_near_antipode sin_rounded cos_rounded atan2_rounded
           eq_refl eq_refl eq_refl eq_refl atan2_rounded_nan).
Defined.

(** C9, at an input that breaks it. The latitudes 8 and -8 lie in
    [-90, 90], and the distance from (8, 0) to (-8, 180) is no
    nonnegative number: [0 <= distance] is false, and the two points are
    within no radius of each other, however large. The assumptions on
    [Math] are those of C4; the defect is the same. *)
Theorem calculateDistance_not_a_number_in_range (sin cos : float -> float)
    (atan2 : float -> float -> float) :
  sin (-0x1.1df46a2529d39p-3)%float = (-0x1.1d06c968d9e19p-3)%float ->
  sin 0x1.921fb54442d18p+0%float = 1%float ->
  cos 0x1.1df46a2529d39p-3%float = 0x1.fb046a930947ap-1%float ->
  cos (-0x1.1df46a2529d39p-3)%float = 0x1.fb046a930947ap-1%float ->
  (forall y x, is_nan x = true -> is_nan (atan2 y x) = true) ->
  ((-90 <=? 8) && (8 <=? 90) && (-90 <=? -8) && (-8 <=? 90))%float = true
  /\ (0 <=? @calculateDistance float (ieee sin cos atan2)
              {| latitude := 8%float; longitude := 0%float |}
              {| latitude := (-8)%float; longitude := 180%float |})%float = false
  /\ (forall radiusKm,
        @isWithinRadius float (ieee sin cos atan2)
          {| latitude := 8%float; longitude := 0%float |}
          {| latitude := (-8)%float; longitude := 180%float |} radiusKm = false).
Proof.
  intros H1 H2 H3 H4 H5.
  pose proof (@near_antipode_nan sin cos atan2 H1 H2 H3 H4 H5) as Hd.
  split; [reflexivity|]. split.
  - rewrite leb_spec. apply is_nan_spec in Hd. rewrite Hd. reflexivity.
  - intros r. unfold isWithinRadius. cbn [le ieee]. apply leb_nan. exact Hd.
Qed.

Lemma calculateDistance_not_a_number_in_range_witness :
  (0 <=? @calculateDistance float ieee_rounded
           {| latitude := 8%float; longitude := 0%float |}
           {| latitude := (-8)%float; longitude := 180%float |})%float = false
  /\ @isWithinRadius float ieee_rounded
       {| latitude := 8%float; longitude := 0%float |}
       {| latitude := (-8)%float; longitude := 180%float |} 30000%float = false.
Proof.
  pose proof (@calculateDistance_not_a_number_in_range sin_rounded cos_rounded
                atan2_rounded eq_refl eq_refl eq_refl eq_refl atan2_rounded_nan)
    as [_ [H1 H2]].
  split; [exact H1|exact (H2 30000%float)].
Defined.

(** ** The direction of travel *)




